(** * H1 OKR performance tracker (src/app.py): model and verified properties

    The program is a Streamlit script.  On every run it loads the tickets of
    the Jira project TKTS through one cached HTTP search, normalises them into
    a table, and, unless the table is empty, shows one team member's share of
    the completed tickets per category.

    Modelling conventions.
    - A Python [str] is a Rocq [string]: its UTF-8 bytes.  [str.lower] is
      modelled on the ASCII letters; it is applied to status names only, and
      no character outside ASCII lowers to a letter of "closed", "done" or
      "resolved".  The [re.IGNORECASE] search is modelled for ASCII patterns
      on arbitrary subjects: besides the two cases of an ASCII letter it
      matches the four characters outside ASCII that Python pairs with [i],
      [s] and [k].  Byte-wise lexicographic order on UTF-8 agrees with
      Python's code-point order.
    - A pandas [DataFrame] built from a list of dicts is the list of its rows;
      boolean indexing [df[mask]] is [List.filter], [len] is [length].
    - A Python [float] is the rational it denotes; arithmetic rounds to the
      nearest binary64 value, ties to even ([Float.round]).
    - Exceptions are values of [exn]; the script runs in a state-and-error monad
      over the network, the [st.cache_data] store and the rendered page. *)

From Stdlib Require Import ZArith QArith Qround Qpower Qabs Lia Lqa List Ascii String Bool
  Permutation.
From stdpp Require Import base decidable list strings sorting pretty gmap.

Local Open Scope string_scope.
Local Open Scope list_scope.

(** ** Python strings *)

Module Py.

(** [c.lower()] for one character: 'A'..'Z' (65..90) move to 'a'..'z'. *)
Definition lower_ascii (c : ascii) : ascii :=
  let n := nat_of_ascii c in
  if (65 <=? n)%nat && (n <=? 90)%nat then ascii_of_nat (n + 32) else c.

(** [s.lower()] *)
Fixpoint lower (s : string) : string :=
  match s with
  | EmptyString => EmptyString
  | String c s' => String (lower_ascii c) (lower s')
  end.

(** Two ASCII characters match under [re.IGNORECASE]. *)
Definition eqb_ci (a b : ascii) : bool :=
  Ascii.eqb (lower_ascii a) (lower_ascii b).

(** The string with the given bytes. *)
Definition utf8 (bytes : list nat) : string :=
  string_of_list_ascii (map ascii_of_nat bytes).

(** The characters beyond its own two cases that an ASCII letter of the
    pattern matches under [re.IGNORECASE], in UTF-8: the regular-expression
    compiler adds U+0130 and U+0131 to [i], U+017F to [s] and U+212A to
    [k]. *)
Definition case_variants (p : ascii) : list string :=
  let lo := lower_ascii p in
  if Ascii.eqb lo "i" then [utf8 [196; 176]; utf8 [196; 177]]
  else if Ascii.eqb lo "s" then [utf8 [197; 191]]
  else if Ascii.eqb lo "k" then [utf8 [226; 132; 170]]
  else [].

(** [s] without its prefix [v]. *)
Fixpoint strip_prefix (v s : string) : option string :=
  match v, s with
  | EmptyString, _ => Some s
  | String _ _, EmptyString => None
  | String a v', String b s' => if Ascii.eqb a b then strip_prefix v' s' else None
  end.

(** The compiled literal pattern [pat] matches at the start of [s]
    ([re.match] with [re.IGNORECASE]): each pattern character takes the next
    character of [s] when that is one of its two ASCII cases or one of its
    [case_variants]. *)
Fixpoint match_ci (pat s : string) : bool :=
  match pat with
  | EmptyString => true
  | String p pat' =>
      match s with
      | EmptyString => false
      | String c s' => eqb_ci p c && match_ci pat' s'
      end
      || existsb (fun v => match strip_prefix v s with
                           | Some rest => match_ci pat' rest
                           | None => false
                           end)
                 (case_variants p)
  end.

(** [re.compile(pat, re.IGNORECASE).search(s) is not None], which is what
    [Series.str.contains(pat, case=False)] computes per value of an object
    column, for an ASCII pattern without regular-expression metacharacters:
    try every start offset, leftmost first.  A lead byte of UTF-8 never
    occurs inside a character, so the offsets inside a character match
    nothing. *)
Fixpoint search_ci (pat s : string) : bool :=
  match_ci pat s ||
  match s with
  | EmptyString => false
  | String _ s' => search_ci pat s'
  end.

(** Characters with a meaning of their own in a Python regular expression. *)
Definition metachars : list ascii :=
  list_ascii_of_string ".^$*+?{}[]\|()".

(** A pattern every character of which is an ASCII character that stands
    for itself. *)
Definition literal (pat : string) : bool :=
  forallb (fun c => (nat_of_ascii c <? 128)%nat &&
                    negb (existsb (Ascii.eqb c) metachars))
          (list_ascii_of_string pat).

End Py.

(** ** Python numbers *)

(** binary64 arithmetic.  A finite [float] is the rational it denotes;
    [round] maps a rational to the nearest binary64 value, ties to even,
    with gradual underflow ([emin]).  Overflow to infinity is not modelled:
    every quotient the script forms lies in [0, 100]. *)
Module Float.

Local Open Scope Q_scope.

Definition float : Type := Q.

(** Significand width and the exponent of the least subnormal. *)
Definition prec : Z := 53.
Definition emin : Z := -1074.

(** Nearest integer, ties to even. *)
Definition rne (x : Q) : Z :=
  let f := Qfloor x in
  match Qcompare (x - inject_Z f) (1 # 2) with
  | Lt => f
  | Gt => (f + 1)%Z
  | Eq => if Z.even f then f else (f + 1)%Z
  end.

(** [floor (log2 x)] for [0 < x]. *)
Definition ilog2 (x : Q) : Z :=
  let l := (Z.log2 (Qnum x) - Z.log2 (Zpos (Qden x)))%Z in
  if Qle_bool (2 ^ l) x then l else (l - 1)%Z.

(** Exponent of the unit in the last place of the binade of [x]. *)
Definition ulp_exp (x : Q) : Z := Z.max (ilog2 x - (prec - 1)) emin.

Definition round_pos (x : Q) : Q :=
  let e := ulp_exp x in inject_Z (rne (x / 2 ^ e)) * 2 ^ e.

Definition round (x : Q) : float :=
  match Qcompare x 0 with
  | Eq => 0
  | Gt => Qred (round_pos x)
  | Lt => Qred (- round_pos (- x))
  end.

(** [float(n)] *)
Definition of_int (n : Z) : float := round (inject_Z n).

(** [x * y] on floats. *)
Definition mul (x y : float) : float := round (x * y).

(** [f"{x:.1f}"]: the decimal with one fractional digit nearest to [x]. *)
Definition format_1f (x : float) : string :=
  let t := rne (Qabs x * 10) in
  ((if Qle_bool 0 x then "" else "-") +:+
   pretty (t / 10)%Z +:+ "." +:+ pretty (t mod 10)%Z)%string.

End Float.

(** Exceptions the script can raise. *)
Inductive exn : Type :=
| HTTPError (status : Z)      (* requests.exceptions.HTTPError *)
| JSONDecodeError             (* response body is not JSON *)
| ZeroDivisionError.

Inductive result (A : Type) : Type :=
| Ok (a : A)
| Raise (e : exn).
Arguments Ok {A} a.
Arguments Raise {A} e.

(** A Python number: the [share_percentage] expression yields the int [0] or a
    float. *)
Inductive pynum : Type :=
| PyInt (n : Z)
| PyFloat (x : Float.float).

(** The float a number is formatted or compared as. *)
Definition to_float (v : pynum) : Float.float :=
  match v with
  | PyInt n => Float.of_int n
  | PyFloat x => x
  end.

(** [a / b] on ints: true division, correctly rounded. *)
Definition truediv (a b : Z) : result Float.float :=
  if (b =? 0)%Z then Raise ZeroDivisionError
  else Ok (Float.round (inject_Z a / inject_Z b)).

(** [f"{v:.1f}%"] *)
Definition format_percent (v : pynum) : string :=
  Float.format_1f (to_float v) +:+ "%".

(** [v >= g] for a float [g]. *)
Definition ge_float (v : pynum) (g : Float.float) : bool :=
  Qle_bool g (to_float v).

(** ** The tracker's answer (src/app.py:36-44, spec section 6) *)

Module Jira.

Record named : Type := { name : string }.
Record user : Type := { displayName : string }.

(** [i['fields']]; [assignee] is JSON null ([None]) for an unassigned issue. *)
Record issue_fields : Type := {
  issuetype : named;
  assignee : option user;
  status : named;
}.

Record issue : Type := { key : string; fields : issue_fields }.

(** The decoded body: the [issues] key may be missing. *)
Record search_result : Type := { issues : option (list issue) }.

End Jira.

Module Requests.

(** What [requests.post] sends. *)
Record request : Type := {
  url : string;
  jql : string;
  req_fields : list string;
  maxResults : Z;
  auth : string * string;
}.

(** What it receives: the status line and the body, [None] when the body
    does not decode as JSON. *)
Record response : Type := {
  status_code : Z;
  json : option Jira.search_result;
}.

(** [Response.raise_for_status]: an [HTTPError] for a 4xx client error or a
    5xx server error, nothing otherwise. *)
Definition raise_for_status (r : response) : result unit :=
  if ((400 <=? status_code r) && (status_code r <? 600))%Z
  then Raise (HTTPError (status_code r))
  else Ok tt.

End Requests.

(** ** The normalised table *)

Record Ticket : Type := {
  key : string;
  type : string;
  assignee : string;
  status : string;
  is_closed : bool;
}.

Definition DataFrame : Type := list Ticket.

(** [df.empty] *)
Definition empty (df : DataFrame) : bool :=
  match df with
  | [] => true
  | _ :: _ => false
  end.

(** [x in xs] for strings. *)
Definition str_in (x : string) (xs : list string) : bool :=
  existsb (String.eqb x) xs.

(** [Series.unique]: the distinct values in order of first appearance. *)
Fixpoint unique_from (seen : list string) (xs : list string) : list string :=
  match xs with
  | [] => []
  | x :: xs' =>
      if str_in x seen then unique_from seen xs'
      else x :: unique_from (x :: seen) xs'
  end.

Definition unique (xs : list string) : list string := unique_from [] xs.

(** [sorted] on strings. *)
Definition sorted (xs : list string) : list string := merge_sort String.le xs.

(** [df['type'].str.contains(cat, case=False)] as a row predicate. *)
Definition type_contains (cat : string) (t : Ticket) : bool :=
  Py.search_ci cat (type t).

(** [(d['assignee'] == selected_user) & (d['is_closed'])] as a row
    predicate. *)
Definition closed_by (selected_user : string) (t : Ticket) : bool :=
  String.eqb (assignee t) selected_user && is_closed t.

(** ** Secrets, the network, the cache and the page *)

Record secrets : Type := {
  JIRA_DOMAIN : string;
  JIRA_USER_EMAIL : string;
  JIRA_API_TOKEN : string;
}.

Definition OKR_GO_LIVE_DATE : string := "2026-02-01".

(** One row of the breakdown table (src/app.py:107). *)
Record summary_row : Type := {
  Category : string;
  Team_Total : nat;
  Your_Completed : nat;
  Current_Share : string;
}.

(** What the script puts on the page, one constructor per Streamlit call. *)
Inductive element : Type :=
| title (body : string)
| info (body : string)
| warning (body : string)
| selectbox (label : string) (options : list string)
| metric (label value : string)
| write (body : string)
| altair_chart (share : pynum) (goal : Float.float) (bar_color : string)
| caption (body : string)
| divider
| subheader (body : string)
| table (rows : list summary_row).

(** The world a run of the script acts on: [server n] is the tracker's answer
    to the [n]-th request of the process, [sent] the requests issued so far
    (latest first), [memo] the entry of [st.cache_data] for [load_h1_data]
    with the clock reading at which it was stored, [page] the elements
    rendered by the current run (latest first). *)
Record world : Type := {
  server : nat -> Requests.response;
  sent : list Requests.request;
  memo : option (DataFrame * Z);
  page : list element;
}.

(** Number of network calls made so far. *)
Definition calls (w : world) : nat := length (sent w).

(** Computations of the script: state passing with exceptions; the state
    reached when an exception is raised is kept. *)
Definition M (A : Type) : Type := world -> result A * world.

Definition ret {A} (a : A) : M A := fun w => (Ok a, w).

Definition raise {A} (e : exn) : M A := fun w => (Raise e, w).

Definition bind {A B} (m : M A) (k : A -> M B) : M B :=
  fun w =>
    match m w with
    | (Ok a, w') => k a w'
    | (Raise e, w') => (Raise e, w')
    end.

Definition lift {A} (r : result A) : M A := fun w => (r, w).

Notation "'let*' x ':=' m 'in' k" := (bind m (fun x => k))
  (at level 10, x name, m at level 100, k at level 200).

(** [requests.post(url, json=payload, auth=...)]: one synchronous call that
    comes back with the tracker's response.  Transport failures, where no
    response arrives at all, are outside the model. *)
Definition post (rq : Requests.request) : M Requests.response :=
  fun w =>
    (Ok (server w (calls w)),
     {| server := server w; sent := rq :: sent w; memo := memo w; page := page w |}).

(** A Streamlit call that renders [e]. *)
Definition show (e : element) : M unit :=
  fun w =>
    (Ok tt,
     {| server := server w; sent := sent w; memo := memo w; page := e :: page w |}).

(** [response.json()] *)
Definition json (r : Requests.response) : M Jira.search_result :=
  match Requests.json r with
  | Some body => ret body
  | None => raise JSONDecodeError
  end.

(** ** 1. Data loading (src/app.py:24-45) *)

Definition completion_statuses : list string := ["closed"; "done"; "resolved"].

(** The dict appended per issue (src/app.py:37-44). *)
Definition normalize (i : Jira.issue) : Ticket :=
  let f := Jira.fields i in
  {| key := Jira.key i;
     type := Jira.name (Jira.issuetype f);
     assignee := match Jira.assignee f with
                 | Some u => Jira.displayName u
                 | None => "Unassigned"
                 end;
     status := Jira.name (Jira.status f);
     is_closed := str_in (Py.lower (Jira.name (Jira.status f))) completion_statuses |}.

(** The double quote character. *)
Definition dquote : ascii := ascii_of_nat 34.

Definition search_request (cfg : secrets) : Requests.request :=
  {| Requests.url := JIRA_DOMAIN cfg +:+ "/rest/api/3/search/jql";
     Requests.jql := "project = TKTS AND created >= " +:+ String dquote
                     (OKR_GO_LIVE_DATE +:+ String dquote EmptyString);
     Requests.req_fields := ["key"; "issuetype"; "assignee"; "status"; "resolutiondate"];
     Requests.maxResults := 1000;
     Requests.auth := (JIRA_USER_EMAIL cfg, JIRA_API_TOKEN cfg) |}.

(** The body of [load_h1_data]. *)
Definition load_h1_data_body (cfg : secrets) : M DataFrame :=
  let* response := post (search_request cfg) in
  let* _ := lift (Requests.raise_for_status response) in
  let* body := json response in
  ret (map normalize (match Jira.issues body with
                      | Some l => l
                      | None => []
                      end)).

(** [@st.cache_data(ttl=...)] around a function without arguments: an entry
    stored at clock reading [t0] is served while [now < t0 + ttl]; otherwise
    the function runs, and its value, when it returns one, replaces the
    entry. *)
Definition cache_data (ttl : Z) (f : M DataFrame) (now : Z) : M DataFrame :=
  fun w =>
    let miss :=
      match f w with
      | (Ok v, w') =>
          (Ok v, {| server := server w'; sent := sent w';
                    memo := Some (v, now); page := page w' |})
      | (Raise e, w') => (Raise e, w')
      end in
    match memo w with
    | Some (v, t0) => if (now <? t0 + ttl)%Z then (Ok v, w) else miss
    | None => miss
    end.

Definition load_h1_data (cfg : secrets) (now : Z) : M DataFrame :=
  cache_data 3600 (load_h1_data_body cfg) now.

(** ** 2. Logic and calculations (src/app.py:54-66, 100-107) *)

Definition categories : list string := ["Display"; "Video"; "Pixel"; "Bespoke"].

Definition team_members (df : DataFrame) : list string :=
  sorted (unique (map assignee df)).

Definition display_df (df : DataFrame) : DataFrame :=
  List.filter (type_contains "Display") df.

Definition total_display_pool (df : DataFrame) : nat := length (display_df df).

Definition user_closed_display (df : DataFrame) (selected_user : string) : nat :=
  length (List.filter (closed_by selected_user) (display_df df)).

(** [(n / d * 100) if d > 0 else 0] *)
Definition percentage (n d : nat) : result pynum :=
  if (0 <? d)%nat then
    match truediv (Z.of_nat n) (Z.of_nat d) with
    | Ok q => Ok (PyFloat (Float.mul q (Float.of_int 100)))
    | Raise e => Raise e
    end
  else Ok (PyInt 0).

Definition share_percentage (df : DataFrame) (selected_user : string) : result pynum :=
  percentage (user_closed_display df selected_user) (total_display_pool df).

Definition cat_pool (df : DataFrame) (cat : string) : DataFrame :=
  List.filter (type_contains cat) df.

Definition total_cat (df : DataFrame) (cat : string) : nat := length (cat_pool df cat).

Definition user_cat (df : DataFrame) (selected_user cat : string) : nat :=
  length (List.filter (closed_by selected_user) (cat_pool df cat)).

Definition perc (df : DataFrame) (selected_user cat : string) : result pynum :=
  percentage (user_cat df selected_user cat) (total_cat df cat).

(** The loop of the breakdown table: one row per category, in order; an
    exception in an iteration ends the loop. *)
Fixpoint summary (df : DataFrame) (selected_user : string) (cats : list string)
  : result (list summary_row) :=
  match cats with
  | [] => Ok []
  | cat :: cats' =>
      match perc df selected_user cat with
      | Raise e => Raise e
      | Ok p =>
          match summary df selected_user cats' with
          | Raise e => Raise e
          | Ok rows =>
              Ok ({| Category := cat;
                     Team_Total := total_cat df cat;
                     Your_Completed := user_cat df selected_user cat;
                     Current_Share := format_percent p |} :: rows)
          end
      end
  end.

(** ** 3. The script (src/app.py:18-109)

    [pick] is the user's answer to the select box: the option the widget
    returns for the options it is given.  [st.set_page_config] and
    [st.columns] only set the browser title and the layout; they put no
    element on the page and are left out. *)

Definition goal_value : Float.float := 20%Q.

(** [str(goal_value)]: the shortest decimal that reads back as [20.0]. *)
Definition goal_value_str : string := "20.0".

Definition dashboard (df : DataFrame) (pick : list string -> string) : M unit :=
  let* _ := show (selectbox "Select Team Member to Track:" (team_members df)) in
  let selected_user := pick (team_members df) in
  let* share := lift (share_percentage df selected_user) in
  let* _ := show (metric "Your Display Market Share" (format_percent share)) in
  let* _ := show (write ("**Total Pool:** " +:+ pretty (total_display_pool df) +:+
                         " Display TKTS raised team-wide.")) in
  let* _ := show (write ("**Your Work:** " +:+
                         pretty (user_closed_display df selected_user) +:+
                         " tickets completed.")) in
  let* _ := show (altair_chart share goal_value
                    (if ge_float share goal_value then "#00CC66" else "#FF9933")) in
  let* _ := show (caption ("Red dashed line represents the " +:+
                           goal_value_str +:+ "% target.")) in
  let* _ := show divider in
  let* _ := show (subheader "Your Share Across All Categories") in
  let* rows := lift (summary df selected_user categories) in
  show (table rows).

Definition app (cfg : secrets) (now : Z) (pick : list string -> string) : M unit :=
  let* _ := show (title "🏆 H1 2026 Performance Tracker") in
  let* _ := show (info ("Tracking tickets created from Go-Live Date: **" +:+
                        OKR_GO_LIVE_DATE +:+ "** onwards.")) in
  let* df := load_h1_data cfg now in
  if empty df then show (warning "No tickets found for the current OKR period.")
  else dashboard df pick.

(** A run of the script starts from a blank page. *)
Definition rerun (w : world) : world :=
  {| server := server w; sent := sent w; memo := memo w; page := [] |}.

Definition run (cfg : secrets) (now : Z) (pick : list string -> string) (w : world)
  : result unit * world :=
  app cfg now pick (rerun w).

(** ** The example scenario of the specification (section 8) *)

Definition mk_issue (k ty : string) (who : option string) (st : string) : Jira.issue :=
  {| Jira.key := k;
     Jira.fields :=
       {| Jira.issuetype := {| Jira.name := ty |};
          Jira.assignee := match who with
                           | Some n => Some {| Jira.displayName := n |}
                           | None => None
                           end;
          Jira.status := {| Jira.name := st |} |} |}.

Definition example_issues : list Jira.issue :=
  [mk_issue "TKTS-1" "ANZ - Display" (Some "Alice") "Done";
   mk_issue "TKTS-2" "UK - Display" (Some "Bob") "Open";
   mk_issue "TKTS-3" "Video" (Some "Alice") "Closed"].

Definition example_snapshot : DataFrame := map normalize example_issues.

Definition example_cfg : secrets :=
  {| JIRA_DOMAIN := "https://example.atlassian.net";
     JIRA_USER_EMAIL := "okr@example.com";
     JIRA_API_TOKEN := "token" |}.

(** A process that has made no request yet, facing a tracker that answers
    every request with [r]. *)
Definition fresh_world (r : Requests.response) : world :=
  {| server := fun _ => r; sent := []; memo := None; page := [] |}.

Definition ok_response (l : list Jira.issue) : Requests.response :=
  {| Requests.status_code := 200;
     Requests.json := Some {| Jira.issues := Some l |} |}.

(** A tracker answer with status 300 (Multiple Choices) and a JSON body. *)
Definition multiple_choices_response : Requests.response :=
  {| Requests.status_code := 300;
     Requests.json := Some {| Jira.issues := Some example_issues |} |}.

(** A tracker answer with status 401 (Unauthorized). *)
Definition unauthorized_response : Requests.response :=
  {| Requests.status_code := 401; Requests.json := None |}.

(** ** The specification's vocabulary *)

(** [a] occurs in [b] as a contiguous substring. *)
Definition substring_of (a b : string) : Prop :=
  exists pre post : string, b = pre +:+ a +:+ post.

(** The letters of ASCII, upper case and lower case in the same order. *)
Definition upper_letters : string := "ABCDEFGHIJKLMNOPQRSTUVWXYZ".
Definition lower_letters : string := "abcdefghijklmnopqrstuvwxyz".

(** The character of [to] at the place [c] has in [from]; [c] itself when it
    does not occur in [from]. *)
Fixpoint translate (from to : string) (c : ascii) : ascii :=
  match from, to with
  | String a from', String b to' => if Ascii.eqb c a then b else translate from' to' c
  | _, _ => c
  end.

(** Unicode's simple lower-case mapping of one encoded character, as far as
    it reaches ASCII: the upper-case letters, U+0130 (capital I with dot
    above, to [i]) and U+212A (Kelvin sign, to [k]).  The image of every
    other character lies outside ASCII; it is left as it is. *)
Definition simple_lowercase (u : string) : string :=
  match u with
  | String c EmptyString => String (translate upper_letters lower_letters c) EmptyString
  | _ => if String.eqb u "İ" then "i" else if String.eqb u "K" then "k" else u
  end.

(** Unicode's simple upper-case mapping, as far as it reaches ASCII: the
    lower-case letters, U+0131 (dotless i, to [I]) and U+017F (long s, to
    [S]). *)
Definition simple_uppercase (u : string) : string :=
  match u with
  | String c EmptyString => String (translate lower_letters upper_letters c) EmptyString
  | _ => if String.eqb u "ı" then "I" else if String.eqb u "ſ" then "S" else u
  end.

(** The encoded character [u] is the ASCII character [p] up to case: the two
    have the same lower case or the same upper case. *)
Definition same_letter (p : ascii) (u : string) : Prop :=
  simple_lowercase u = simple_lowercase (String p EmptyString) \/
  simple_uppercase u = simple_uppercase (String p EmptyString).

(** [same_letter] as a boolean. *)
Definition same_letter_b (p : ascii) (u : string) : bool :=
  String.eqb (simple_lowercase u) (simple_lowercase (String p EmptyString)) ||
  String.eqb (simple_uppercase u) (simple_uppercase (String p EmptyString)).

(** [spells pat s]: [s] is [pat] up to case, character by character. *)
Inductive spells : string -> string -> Prop :=
| spells_nil : spells EmptyString EmptyString
| spells_cons (p : ascii) (pat u s : string) :
    same_letter p u -> spells pat s -> spells (String p pat) (u +:+ s).

(** The spec's category rule: [s] contains [c] as a case-insensitive
    substring. *)
Definition contains_ci (s c : string) : Prop :=
  exists pre mid post : string, s = pre +:+ mid +:+ post /\ spells c mid.

(** Every character, in the order of its code. *)
Definition all_ascii : list ascii := map ascii_of_nat (seq 0 256).

(** A ticket belongs to category [cat]. *)
Definition in_category (cat : string) (t : Ticket) : Prop :=
  contains_ci (type t) cat.

(** [counts P df n]: exactly [n] rows of [df] satisfy [P], each row counted
    once. *)
Inductive counts (P : Ticket -> Prop) : DataFrame -> nat -> Prop :=
| counts_nil : counts P [] 0
| counts_hit t df n : P t -> counts P df n -> counts P (t :: df) (S n)
| counts_miss t df n : ~ P t -> counts P df n -> counts P (t :: df) n.

(** [row] is the breakdown row of category [cat]. *)
Definition row_for (df : DataFrame) (selected_user cat : string) (row : summary_row)
  : Prop :=
  Category row = cat /\
  Team_Total row = total_cat df cat /\
  Your_Completed row = user_cat df selected_user cat /\
  exists p, perc df selected_user cat = Ok p /\ Current_Share row = format_percent p.

(** The world [w] with the page replaced by [p]. *)
Definition with_page (p : list element) (w : world) : world :=
  {| server := server w; sent := sent w; memo := memo w; page := p |}.

(** The world after the search request has been sent. *)
Definition after_post (cfg : secrets) (w : world) : world :=
  {| server := server w; sent := search_request cfg :: sent w;
     memo := memo w; page := page w |}.

(** What [load_h1_data] makes of a response (src/app.py:33-45). *)
Definition decode (r : Requests.response) : result DataFrame :=
  match Requests.raise_for_status r with
  | Raise e => Raise e
  | Ok _ =>
      match Requests.json r with
      | None => Raise JSONDecodeError
      | Some body =>
          Ok (map normalize (match Jira.issues body with
                             | Some l => l
                             | None => []
                             end))
      end
  end.

(** The two elements every run starts with, latest first. *)
Definition banner : list element :=
  [info "Tracking tickets created from Go-Live Date: **2026-02-01** onwards.";
   title "🏆 H1 2026 Performance Tracker"].

(** The elements the dashboard branch renders, latest first. *)
Definition dashboard_page (df : DataFrame) (selected_user : string)
           (share : pynum) (rows : list summary_row) : list element :=
  [table rows;
   subheader "Your Share Across All Categories";
   divider;
   caption "Red dashed line represents the 20.0% target.";
   altair_chart share goal_value
     (if ge_float share goal_value then "#00CC66" else "#FF9933");
   write ("**Your Work:** " +:+ pretty (user_closed_display df selected_user) +:+
          " tickets completed.");
   write ("**Total Pool:** " +:+ pretty (total_display_pool df) +:+
          " Display TKTS raised team-wide.");
   metric "Your Display Market Share" (format_percent share);
   selectbox "Select Team Member to Track:" (team_members df)].

(** ** The whole file, the tracker and the cache seen from outside *)

(** The names under which [st.secrets] is read, in the order of the reads
    (src/app.py:13-15). *)
Definition secret_keys : list string :=
  ["JIRA_DOMAIN"; "JIRA_USER_EMAIL"; "JIRA_API_TOKEN"].

(** How a run of the whole file ends. *)
Inductive outcome : Type :=
| Completed
| Uncaught (e : exn)
| KeyError (k : string).

(** [st.secrets[k]] for the three keys, [st.secrets] being a dict of
    strings: the first missing key raises [KeyError]. *)
Definition read_secrets (store : gmap string string) : string + secrets :=
  match store !! "JIRA_DOMAIN" with
  | None => inl "JIRA_DOMAIN"
  | Some domain =>
      match store !! "JIRA_USER_EMAIL" with
      | None => inl "JIRA_USER_EMAIL"
      | Some email =>
          match store !! "JIRA_API_TOKEN" with
          | None => inl "JIRA_API_TOKEN"
          | Some token =>
              inr {| JIRA_DOMAIN := domain;
                     JIRA_USER_EMAIL := email;
                     JIRA_API_TOKEN := token |}
          end
      end
  end.

(** The file from its first line: the secrets are read before anything is
    rendered or sent. *)
Definition script (store : gmap string string) (now : Z)
           (pick : list string -> string) (w : world) : outcome * world :=
  match read_secrets store with
  | inl k => (KeyError k, rerun w)
  | inr cfg =>
      match run cfg now pick w with
      | (Ok _, w') => (Completed, w')
      | (Raise e, w') => (Uncaught e, w')
      end
  end.

(** The world [w] facing a tracker that answers by [srv]. *)
Definition with_server (srv : nat -> Requests.response) (w : world) : world :=
  {| server := srv; sent := sent w; memo := memo w; page := page w |}.

(** The cache entry of [w] is valid at clock reading [now]. *)
Definition cache_valid (now : Z) (w : world) : bool :=
  match memo w with
  | Some (_, t0) => (now <? t0 + 3600)%Z
  | None => false
  end.

(** A row whose flag agrees with its status. *)
Definition flag_consistent (t : Ticket) : Prop :=
  is_closed t = str_in (Py.lower (status t)) completion_statuses.

(** Every row of the cached table has a consistent flag. *)
Definition cache_consistent (w : world) : Prop :=
  match memo w with
  | Some (v, _) => Forall flag_consistent v
  | None => True
  end.

(** A world whose cache holds the example snapshot, stored at time 0, and
    whose tracker has started to answer 401. *)
Definition stale_world : world :=
  with_server (fun _ => unauthorized_response)
    (snd (load_h1_data example_cfg 0 (fresh_world (ok_response example_issues)))).

(** The example store of secrets. *)
Definition example_store : gmap string string :=
  <["JIRA_DOMAIN" := "https://example.atlassian.net"]>
    (<["JIRA_USER_EMAIL" := "okr@example.com"]>
       (<["JIRA_API_TOKEN" := "token"]> (∅ : gmap string string))).

(** ** The case-insensitive search

    The search is compared with the relation [contains_ci], which is built
    from the two case tables alone. *)

Lemma all_ascii_complete (c : ascii) : In c all_ascii.
Proof.
  unfold all_ascii. rewrite <- (ascii_nat_embedding c).
  apply List.in_map, List.in_seq. pose proof (nat_ascii_bounded c). lia.
Qed.

Lemma ascii_forall (P : ascii -> bool) :
  forallb P all_ascii = true -> forall c, P c = true.
Proof.
  intros H c. rewrite forallb_forall in H. apply H, all_ascii_complete.
Qed.

Lemma append_assoc (a b c : string) : (a +:+ b) +:+ c = a +:+ (b +:+ c).
Proof.
  induction a as [|x a IH]; [reflexivity|].
  change (String x ((a +:+ b) +:+ c) = String x (a +:+ b +:+ c)). now rewrite IH.
Qed.

Lemma strip_prefix_spec (v s rest : string) :
  Py.strip_prefix v s = Some rest <-> s = v +:+ rest.
Proof.
  revert s. induction v as [|a v IH]; intros s; simpl.
  - split; [now intros [= ->] | now intros ->].
  - destruct s as [|b s]; [split; discriminate|].
    destruct (Ascii.eqb_spec a b) as [->|Hne].
    + rewrite IH. split; [now intros -> | now intros [= ->]].
    + split; [discriminate | intros [= E _]; congruence].
Qed.

(** Every case variant is one of the four encoded characters. *)
Lemma case_variants_special (p : ascii) (v : string) :
  In v (Py.case_variants p) ->
  v = Py.utf8 [196; 176] \/ v = Py.utf8 [196; 177] \/
  v = Py.utf8 [197; 191] \/ v = Py.utf8 [226; 132; 170].
Proof.
  unfold Py.case_variants.
  destruct (Ascii.eqb _ "i"); [simpl; intuition auto|].
  destruct (Ascii.eqb _ "s"); [simpl; intuition auto|].
  destruct (Ascii.eqb _ "k"); simpl; intuition auto.
Qed.

Lemma same_letter_b_spec (p : ascii) (u : string) :
  same_letter_b p u = true <-> same_letter p u.
Proof.
  unfold same_letter_b, same_letter. now rewrite orb_true_iff, !String.eqb_eq.
Qed.

(** On single characters the two case tables agree with [eqb_ci]. *)
Lemma same_letter_single (p c : ascii) :
  same_letter_b p (String c EmptyString) = Py.eqb_ci p c.
Proof.
  revert c. revert p.
  assert (H : forallb (fun p => forallb (fun c =>
                 Bool.eqb (same_letter_b p (String c EmptyString)) (Py.eqb_ci p c))
                 all_ascii) all_ascii = true) by (vm_compute; reflexivity).
  intros p c. apply Bool.eqb_prop.
  apply (ascii_forall (fun c => Bool.eqb (same_letter_b p (String c EmptyString))
                                         (Py.eqb_ci p c))).
  apply (ascii_forall (fun p => forallb (fun c =>
                 Bool.eqb (same_letter_b p (String c EmptyString)) (Py.eqb_ci p c))
                 all_ascii)). exact H.
Qed.

(** On each of the four characters outside ASCII the case tables agree with
    [case_variants]. *)
Lemma same_letter_special (p : ascii) (u : string) :
  u = Py.utf8 [196; 176] \/ u = Py.utf8 [196; 177] \/
  u = Py.utf8 [197; 191] \/ u = Py.utf8 [226; 132; 170] ->
  same_letter_b p u = existsb (String.eqb u) (Py.case_variants p).
Proof.
  intros [->|[->|[->| ->]]]; revert p;
    match goal with
    | |- forall p, same_letter_b p ?u = _ =>
        intros p; apply Bool.eqb_prop;
        apply (ascii_forall (fun p => Bool.eqb (same_letter_b p u)
                                        (existsb (String.eqb u) (Py.case_variants p))));
        vm_compute; reflexivity
    end.
Qed.

Lemma long_ne_single (c c2 x : ascii) (r : string) :
  String.eqb (String c (String c2 r)) (String x EmptyString) = false.
Proof. apply String.eqb_neq. intros [= _ H]. Qed.

Lemma same_letter_iff (p : ascii) (u : string) :
  same_letter p u <->
  (exists c, u = String c EmptyString /\ Py.eqb_ci p c = true) \/
  In u (Py.case_variants p).
Proof.
  rewrite <- same_letter_b_spec.
  destruct (String.string_dec u (Py.utf8 [196; 176])) as [E1|N1];
  [|destruct (String.string_dec u (Py.utf8 [196; 177])) as [E2|N2];
  [|destruct (String.string_dec u (Py.utf8 [197; 191])) as [E3|N3];
  [|destruct (String.string_dec u (Py.utf8 [226; 132; 170])) as [E4|N4]]]].
  1-4: rewrite same_letter_special by tauto;
       rewrite existsb_exists; split;
       [ intros (v & Hv & E); apply String.eqb_eq in E; subst v; now right
       | intros [(c & -> & _)|H];
         [ subst; discriminate
         | exists u; split; [exact H | apply String.eqb_refl] ] ].
  (* [u] is none of the four characters *)
  destruct u as [|c [|c2 r]].
  - split; [discriminate|]. intros [(c & [=] & _)|H].
    apply case_variants_special in H. tauto.
  - rewrite same_letter_single. split.
    + intros H. left. now exists c.
    + intros [(c' & [= <-] & H)|H]; [exact H|].
      apply case_variants_special in H. tauto.
  - split.
    + unfold same_letter_b.
      assert (L : simple_lowercase (String c (String c2 r)) = String c (String c2 r)).
      { unfold simple_lowercase.
        repeat match goal with
               | |- context [String.eqb ?a ?b] =>
                   destruct (String.eqb_spec a b) as [E|_]; [exfalso; auto|]
               end.
        reflexivity. }
      assert (U : simple_uppercase (String c (String c2 r)) = String c (String c2 r)).
      { unfold simple_uppercase.
        repeat match goal with
               | |- context [String.eqb ?a ?b] =>
                   destruct (String.eqb_spec a b) as [E|_]; [exfalso; auto|]
               end.
        reflexivity. }
      rewrite L, U. cbn [simple_lowercase simple_uppercase].
      rewrite !long_ne_single. discriminate.
    + intros [(c' & [=] & _)|H]. apply case_variants_special in H. tauto.
Qed.

Lemma match_ci_spec (pat s : string) :
  Py.match_ci pat s = true <->
  exists mid post, s = mid +:+ post /\ spells pat mid.
Proof.
  revert s. induction pat as [|p pat IH]; intros s.
  - split; [|reflexivity]. intros _. exists EmptyString, s. split; [reflexivity | constructor].
  - cbn [Py.match_ci]. rewrite orb_true_iff, existsb_exists. split.
    + intros [H|(v & Hv & H)].
      * destruct s as [|c s]; [discriminate|].
        apply andb_true_iff in H. destruct H as [Hc H].
        apply IH in H. destruct H as (mid & post & -> & Hs).
        exists (String c EmptyString +:+ mid), post. split; [reflexivity|].
        constructor; [|exact Hs]. apply same_letter_iff. left. now exists c.
      * destruct (Py.strip_prefix v s) as [rest|] eqn:E; [|discriminate].
        apply strip_prefix_spec in E. apply IH in H.
        destruct H as (mid & post & -> & Hs).
        exists (v +:+ mid), post. split; [now rewrite E, append_assoc|].
        constructor; [|exact Hs]. apply same_letter_iff. now right.
    + intros (mid & post & -> & Hs). inversion Hs as [|p' pat' u m Hl Hm]; subst.
      apply same_letter_iff in Hl. destruct Hl as [(c & -> & Hc)|Hv].
      * left. change (Py.eqb_ci p c && Py.match_ci pat (m +:+ post) = true).
        rewrite Hc. apply IH. now exists m, post.
      * right. exists u. split; [exact Hv|].
        rewrite append_assoc.
        rewrite (proj2 (strip_prefix_spec u (u +:+ m +:+ post) (m +:+ post)) eq_refl).
        apply IH. now exists m, post.
Qed.

Lemma search_ci_spec (pat s : string) :
  Py.search_ci pat s = true <-> contains_ci s pat.
Proof.
  unfold contains_ci. induction s as [|c s IH]; cbn [Py.search_ci].
  - rewrite orb_false_r, match_ci_spec. split.
    + intros (mid & post & E & Hs). now exists EmptyString, mid, post.
    + intros (pre & mid & post & E & Hs). destruct pre; [|discriminate].
      now exists mid, post.
  - rewrite orb_true_iff, match_ci_spec, IH. split.
    + intros [(mid & post & E & Hs)|(pre & mid & post & E & Hs)].
      * now exists EmptyString, mid, post.
      * exists (String c pre), mid, post. split; [simpl; now rewrite E | exact Hs].
    + intros (pre & mid & post & E & Hs). destruct pre as [|d pre].
      * left. now exists mid, post.
      * right. injection E as _ E. now exists pre, mid, post.
Qed.

Lemma match_ci_lower (pat s : string) :
  (exists post, Py.lower s = Py.lower pat +:+ post) -> Py.match_ci pat s = true.
Proof.
  revert s. induction pat as [|p pat IH]; intros s [post H]; [reflexivity|].
  destruct s as [|c s]; [discriminate|]. simpl in H. injection H as Hc Hs.
  cbn [Py.match_ci]. apply orb_true_iff. left. apply andb_true_iff. split.
  - unfold Py.eqb_ci. rewrite Hc. apply Ascii.eqb_refl.
  - apply IH. now exists post.
Qed.

(** What the search finds in any case: every occurrence of the pattern up
    to the case of the ASCII letters. *)
Lemma search_ci_lower (pat s : string) :
  substring_of (Py.lower pat) (Py.lower s) -> Py.search_ci pat s = true.
Proof.
  unfold substring_of. induction s as [|c s IH]; intros (pre & post & H);
    cbn [Py.search_ci]; apply orb_true_iff.
  - left. apply match_ci_lower. destruct pre; [|discriminate]. now exists post.
  - destruct pre as [|d pre].
    + left. apply match_ci_lower. now exists post.
    + right. apply IH. simpl in H. injection H as _ H. now exists pre, post.
Qed.

(** * Properties *)

(** ** binary64 rounding *)

Section FloatFacts.

Local Open Scope Q_scope.

Lemma rne_lower (x : Q) (k : Z) : inject_Z k <= x -> (k <= Float.rne x)%Z.
Proof.
  intros H. apply Qfloor_resp_le in H. rewrite Qfloor_Z in H.
  unfold Float.rne. destruct (_ ?= _); [destruct (Z.even _)| |]; lia.
Qed.

Lemma rne_upper (x : Q) (k : Z) : x <= inject_Z k -> (Float.rne x <= k)%Z.
Proof.
  intros H. pose proof (Qfloor_le x) as Hf. pose proof (Qlt_floor x) as Hl.
  assert (Hfk : (Qfloor x <= k)%Z).
  { apply Qfloor_resp_le in H. now rewrite Qfloor_Z in H. }
  destruct (Z.eq_dec (Qfloor x) k) as [E|NE].
  - (* floor x = k, so x = k *)
    unfold Float.rne. rewrite E in *.
    assert (Hx : x - inject_Z k <= 0) by lra.
    destruct (Qcompare_spec (x - inject_Z k) (1#2)) as [C|C|C]; try lia; lra.
  - unfold Float.rne. destruct (_ ?= _); [destruct (Z.even _)| |]; lia.
Qed.

Lemma rne_Z (k : Z) : Float.rne (inject_Z k) = k.
Proof. apply Z.le_antisymm; [apply rne_upper | apply rne_lower]; lra. Qed.

Lemma rne_mono (x y : Q) : x <= y -> (Float.rne x <= Float.rne y)%Z.
Proof.
  intros H. pose proof (Qfloor_resp_le _ _ H) as Hf.
  destruct (Z.eq_dec (Qfloor x) (Qfloor y)) as [E|NE].
  - unfold Float.rne. rewrite E.
    destruct (Qcompare_spec (x - inject_Z (Qfloor y)) (1#2)) as [C|C|C];
    destruct (Qcompare_spec (y - inject_Z (Qfloor y)) (1#2)) as [D|D|D];
    try destruct (Z.even _); try lia; lra.
  - apply Z.le_trans with (Qfloor y); [|apply rne_lower, Qfloor_le].
    apply rne_upper. pose proof (Qlt_floor x) as Hl.
    assert ((Qfloor x + 1 <= Qfloor y)%Z) by lia.
    apply Qlt_le_weak. eapply Qlt_le_trans; [exact Hl|].
    rewrite <- Zle_Qle. lia.
Qed.

Lemma two_pow_pos (e : Z) : 0 < 2 ^ e.
Proof. apply Qpower_0_lt. reflexivity. Qed.

Lemma two_pow_succ (e : Z) : 2 ^ (e + 1) == 2 * 2 ^ e.
Proof. rewrite Qpower_plus by discriminate. simpl (2 ^ 1). ring. Qed.

Lemma two_pow_le (a b : Z) : (a <= b)%Z -> 2 ^ a <= 2 ^ b.
Proof. intros H. apply Qpower_le_compat_l; [exact H | discriminate]. Qed.

Lemma two_pow_lt_inv (a b : Z) : 2 ^ a < 2 ^ b -> (a < b)%Z.
Proof. intros H. apply Qpower_lt_compat_l_inv in H; [exact H | reflexivity]. Qed.

Lemma Zlog2_Q (n : Z) :
  (0 < n)%Z -> 2 ^ Z.log2 n <= inject_Z n /\ inject_Z n < 2 ^ (Z.log2 n + 1).
Proof.
  intros H. destruct (Z.log2_spec n H) as [H1 H2].
  pose proof (Z.log2_nonneg n) as H0.
  change 2 with (inject_Z 2).
  rewrite <- !Zpower_Qpower by lia.
  rewrite <- Zle_Qle, <- Zlt_Qlt. replace (Z.log2 n + 1)%Z with (Z.succ (Z.log2 n)) by lia.
  split; assumption.
Qed.

Lemma ilog2_spec (x : Q) :
  0 < x -> 2 ^ Float.ilog2 x <= x /\ x < 2 ^ (Float.ilog2 x + 1).
Proof.
  intros Hx. unfold Float.ilog2.
  destruct x as [n d]. cbn [Qnum Qden].
  assert (Hn : (0 < n)%Z) by (unfold Qlt in Hx; simpl in Hx; lia).
  destruct (Zlog2_Q n Hn) as [A1 A2].
  destruct (Zlog2_Q (Zpos d) (Pos2Z.is_pos d)) as [B1 B2].
  set (a := Z.log2 n) in *. set (b := Z.log2 (Zpos d)) in *.
  assert (Hnd : n # d == inject_Z n / inject_Z (Zpos d)) by apply Qmake_Qdiv.
  assert (Hd : 0 < inject_Z (Zpos d)) by (rewrite <- (Zlt_Qlt 0); lia).
  pose proof (two_pow_pos a) as Pa. pose proof (two_pow_pos b) as Pb.
  pose proof (two_pow_pos (a - b)) as Pab.
  assert (Hab : 2 ^ a == 2 ^ (a - b) * 2 ^ b).
  { rewrite <- Qpower_plus by discriminate. now replace (a - b + b)%Z with a by lia. }
  rewrite two_pow_succ in A2, B2.
  assert (Hx' : n # d == inject_Z n / inject_Z (Zpos d)) by exact Hnd.
  assert (Hmul : (n # d) * inject_Z (Zpos d) == inject_Z n).
  { rewrite Hnd. field. lra. }
  destruct (Qle_bool (2 ^ (a - b)) (n # d)) eqn:E.
  - apply Qle_bool_iff in E. split; [exact E|].
    rewrite two_pow_succ.
    (* n/d < 2 * 2^(a-b) since n < 2*2^a and d >= 2^b *)
    apply Qnot_le_lt. intros C.
    assert (2 * 2 ^ (a - b) * 2 ^ b <= (n # d) * inject_Z (Zpos d)).
    { apply Qle_trans with ((n # d) * 2 ^ b).
      - apply Qmult_le_compat_r; lra.
      - apply Qmult_le_l; lra. }
    lra.
  - assert (E' : n # d < 2 ^ (a - b)).
    { apply Qnot_le_lt. intros C. apply Qle_bool_iff in C. congruence. }
    replace (a - b - 1 + 1)%Z with (a - b)%Z by lia. split; [|exact E'].
    assert (H2 : 2 ^ (a - b) == 2 * 2 ^ (a - b - 1)).
    { rewrite <- two_pow_succ. now replace (a - b - 1 + 1)%Z with (a - b)%Z by lia. }
    pose proof (two_pow_pos (a - b - 1)) as Pab1.
    apply Qnot_lt_le. intros C.
    assert ((n # d) * inject_Z (Zpos d) < 2 ^ (a - b - 1) * (2 * 2 ^ b)).
    { apply Qle_lt_trans with ((n # d) * (2 * 2 ^ b)).
      - apply Qmult_le_l; lra.
      - apply Qmult_lt_compat_r; lra. }
    rewrite H2 in Hab. lra.
Qed.

Lemma ilog2_mono (x y : Q) : 0 < x -> x <= y -> (Float.ilog2 x <= Float.ilog2 y)%Z.
Proof.
  intros Hx Hxy.
  destruct (ilog2_spec x Hx) as [A _].
  destruct (ilog2_spec y) as [_ B]; [lra|].
  assert (H : 2 ^ Float.ilog2 x < 2 ^ (Float.ilog2 y + 1)) by lra.
  apply two_pow_lt_inv in H. lia.
Qed.

Lemma ulp_exp_mono (x y : Q) : 0 < x -> x <= y -> (Float.ulp_exp x <= Float.ulp_exp y)%Z.
Proof.
  intros Hx Hxy. unfold Float.ulp_exp. pose proof (ilog2_mono x y Hx Hxy). lia.
Qed.

(** The scaled significand stays below [2^Float.prec]. *)
Lemma scaled_upper (x : Q) :
  0 < x -> x / 2 ^ Float.ulp_exp x <= 2 ^ Float.prec.
Proof.
  intros Hx. destruct (ilog2_spec x Hx) as [_ B].
  pose proof (two_pow_pos (Float.ulp_exp x)) as P.
  apply Qle_shift_div_r; [exact P|].
  rewrite <- Qpower_plus by discriminate.
  apply Qlt_le_weak. eapply Qlt_le_trans; [exact B|].
  apply two_pow_le. unfold Float.ulp_exp, Float.prec. lia.
Qed.

(** Above the subnormal range the scaled significand is at least
    [2^(Float.prec-1)]. *)
Lemma scaled_lower (x : Q) :
  0 < x -> (Float.emin < Float.ulp_exp x)%Z -> 2 ^ (Float.prec - 1) <= x / 2 ^ Float.ulp_exp x.
Proof.
  intros Hx He. destruct (ilog2_spec x Hx) as [A _].
  pose proof (two_pow_pos (Float.ulp_exp x)) as P.
  apply Qle_shift_div_l; [exact P|].
  rewrite <- Qpower_plus by discriminate.
  eapply Qle_trans; [|exact A].
  apply two_pow_le. unfold Float.ulp_exp in *. lia.
Qed.

Lemma inject_two_pow (n : Z) : (0 <= n)%Z -> inject_Z (2 ^ n) == 2 ^ n.
Proof. intros H. now rewrite Zpower_Qpower. Qed.

Lemma rne_le_pow (x : Q) (n : Z) :
  (0 <= n)%Z -> x <= 2 ^ n -> inject_Z (Float.rne x) <= 2 ^ n.
Proof.
  intros Hn H. pose proof (inject_two_pow n Hn) as E.
  assert (H' : x <= inject_Z (2 ^ n)) by (rewrite E; exact H).
  apply rne_upper in H'. rewrite Zle_Qle in H'. now rewrite E in H'.
Qed.

Lemma rne_ge_pow (x : Q) (n : Z) :
  (0 <= n)%Z -> 2 ^ n <= x -> 2 ^ n <= inject_Z (Float.rne x).
Proof.
  intros Hn H. pose proof (inject_two_pow n Hn) as E.
  assert (H' : inject_Z (2 ^ n) <= x) by (rewrite E; exact H).
  apply rne_lower in H'. rewrite Zle_Qle in H'. now rewrite E in H'.
Qed.

Lemma round_pos_nonneg (x : Q) : 0 <= x -> 0 <= Float.round_pos x.
Proof.
  intros Hx. unfold Float.round_pos.
  pose proof (two_pow_pos (Float.ulp_exp x)) as P.
  apply Qmult_le_0_compat; [|lra].
  rewrite <- (Zle_Qle 0). apply rne_lower.
  apply Qle_shift_div_l; [exact P | change (inject_Z 0) with 0; lra].
Qed.

Lemma round_pos_mono (x y : Q) :
  0 < x -> x <= y -> Float.round_pos x <= Float.round_pos y.
Proof.
  intros Hx Hxy. assert (Hy : 0 < y) by lra.
  pose proof (ulp_exp_mono x y Hx Hxy) as He.
  pose proof (two_pow_pos (Float.ulp_exp x)) as Px.
  pose proof (two_pow_pos (Float.ulp_exp y)) as Py.
  unfold Float.round_pos.
  destruct (Z.eq_dec (Float.ulp_exp x) (Float.ulp_exp y)) as [E|NE].
  - rewrite E. apply Qmult_le_compat_r; [|lra].
    rewrite <- Zle_Qle. apply rne_mono.
    apply Qmult_le_compat_r; [exact Hxy|].
    apply Qlt_le_weak, Qinv_lt_0_compat, Py.
  - (* x lies in a lower binade than y *)
    assert (Hlt : (Float.ulp_exp x + 1 <= Float.ulp_exp y)%Z) by lia.
    apply Qle_trans with (2 ^ Float.prec * 2 ^ Float.ulp_exp x).
    + apply Qmult_le_compat_r; [|lra].
      apply rne_le_pow; [unfold Float.prec; lia | now apply scaled_upper].
    + apply Qle_trans with (2 ^ (Float.prec - 1) * 2 ^ Float.ulp_exp y).
      * rewrite <- !Qpower_plus by discriminate. apply two_pow_le. lia.
      * apply Qmult_le_compat_r; [|lra].
        apply rne_ge_pow; [unfold Float.prec; lia|].
        apply scaled_lower; [exact Hy|].
        assert ((Float.emin <= Float.ulp_exp x)%Z) by (unfold Float.ulp_exp; lia). lia.
Qed.

Lemma round_nonneg (x : Q) : 0 <= x -> 0 <= Float.round x.
Proof.
  intros Hx. unfold Float.round.
  destruct (Qcompare_spec x 0) as [C|C|C]; [lra | lra |].
  rewrite Qred_correct. apply round_pos_nonneg. lra.
Qed.

Lemma round_nonpos (x : Q) : x <= 0 -> Float.round x <= 0.
Proof.
  intros Hx. unfold Float.round.
  destruct (Qcompare_spec x 0) as [C|C|C]; [lra | | lra].
  rewrite Qred_correct.
  assert (0 <= Float.round_pos (- x)) by (apply round_pos_nonneg; lra). lra.
Qed.

(** Rounding to nearest is monotone. *)
Lemma round_mono (x y : Q) : x <= y -> Float.round x <= Float.round y.
Proof.
  intros H.
  destruct (Qlt_le_dec 0 x) as [Hx|Hx].
  - unfold Float.round.
    destruct (Qcompare_spec x 0) as [C|C|C]; try lra.
    destruct (Qcompare_spec y 0) as [D|D|D]; try lra.
    rewrite !Qred_correct. now apply round_pos_mono.
  - destruct (Qlt_le_dec 0 y) as [Hy|Hy].
    + apply Qle_trans with 0; [apply round_nonpos | apply round_nonneg]; lra.
    + destruct (Qeq_dec y 0) as [Ey|Ny].
      * apply Qle_trans with 0; [apply round_nonpos | apply round_nonneg]; lra.
      * unfold Float.round.
        destruct (Qcompare_spec x 0) as [C|C|C]; try lra.
        destruct (Qcompare_spec y 0) as [D|D|D]; try lra.
        rewrite !Qred_correct.
        assert (Float.round_pos (- y) <= Float.round_pos (- x)) by (apply round_pos_mono; lra).
        lra.
Qed.

Lemma round_0 : Float.round 0 = 0.
Proof. reflexivity. Qed.

Lemma round_1 : Float.round 1 = 1.
Proof. vm_compute. reflexivity. Qed.

Lemma round_100 : Float.round 100 = 100.
Proof. vm_compute. reflexivity. Qed.

End FloatFacts.

(** ** Percentages *)

Section PercentageFacts.

Local Open Scope Q_scope.

Lemma of_int_100 : Float.of_int 100 = 100.
Proof. vm_compute. reflexivity. Qed.

Lemma ratio_bounds (n d : nat) :
  (0 < d)%nat -> (n <= d)%nat ->
  0 <= inject_Z (Z.of_nat n) / inject_Z (Z.of_nat d) <= 1.
Proof.
  intros Hd Hn.
  assert (Hd' : 0 < inject_Z (Z.of_nat d)) by (rewrite <- (Zlt_Qlt 0); lia).
  assert (Hn0 : 0 <= inject_Z (Z.of_nat n)) by (rewrite <- (Zle_Qle 0); lia).
  assert (Hnd : inject_Z (Z.of_nat n) <= inject_Z (Z.of_nat d))
    by (rewrite <- Zle_Qle; lia).
  split.
  - apply Qle_shift_div_l; [exact Hd' | lra].
  - apply Qle_shift_div_r; [exact Hd' | lra].
Qed.

Lemma round_unit_interval (x : Q) : 0 <= x <= 1 -> 0 <= Float.round x <= 1.
Proof.
  intros [H0 H1]. split.
  - now apply round_nonneg.
  - rewrite <- round_1. now apply round_mono.
Qed.

Lemma round_percent_interval (x : Q) : 0 <= x <= 100 -> 0 <= Float.round x <= 100.
Proof.
  intros [H0 H1]. split.
  - now apply round_nonneg.
  - rewrite <- round_100. now apply round_mono.
Qed.

(** The guard of the conditional expression keeps the division away from a
    zero divisor: the expression always has a value. *)
Lemma percentage_total (n d : nat) : exists v, percentage n d = Ok v.
Proof.
  unfold percentage, truediv. destruct d as [|d]; simpl (0 <? _)%nat.
  - now exists (PyInt 0).
  - replace (Z.of_nat (S d) =? 0)%Z with false by (symmetry; apply Z.eqb_neq; lia).
    eexists. reflexivity.
Qed.

Lemma percentage_zero (n : nat) : percentage n 0 = Ok (PyInt 0).
Proof. reflexivity. Qed.

Lemma percentage_pos (n d : nat) :
  (0 < d)%nat ->
  percentage n d =
  Ok (PyFloat (Float.mul (Float.round (inject_Z (Z.of_nat n) / inject_Z (Z.of_nat d)))
                         (Float.of_int 100))).
Proof.
  intros Hd. unfold percentage, truediv.
  replace (0 <? d)%nat with true by (symmetry; apply Nat.ltb_lt; exact Hd).
  replace (Z.of_nat d =? 0)%Z with false by (symmetry; apply Z.eqb_neq; lia).
  reflexivity.
Qed.

Lemma percentage_range (n d : nat) :
  (0 < d)%nat -> (n <= d)%nat ->
  exists x, percentage n d = Ok (PyFloat x) /\ 0 <= x <= 100.
Proof.
  intros Hd Hn. rewrite (percentage_pos n d Hd). eexists. split; [reflexivity|].
  pose proof (round_unit_interval _ (ratio_bounds n d Hd Hn)) as [Q0 Q1].
  unfold Float.mul. rewrite of_int_100.
  apply round_percent_interval. split; lra.
Qed.

End PercentageFacts.

(** ** The table *)

Lemma str_in_spec (x : string) (xs : list string) : str_in x xs = true <-> In x xs.
Proof.
  unfold str_in. rewrite existsb_exists. split.
  - intros (y & Hy & E). apply String.eqb_eq in E. now subst.
  - intros H. exists x. split; [exact H | apply String.eqb_refl].
Qed.

Lemma type_contains_spec (cat : string) (t : Ticket) :
  type_contains cat t = true <-> in_category cat t.
Proof. apply search_ci_spec. Qed.

Lemma closed_by_spec (u : string) (t : Ticket) :
  closed_by u t = true <-> assignee t = u /\ is_closed t = true.
Proof. unfold closed_by. now rewrite andb_true_iff, String.eqb_eq. Qed.

(** A boolean mask that decides [P] selects exactly the rows [counts P]
    counts. *)
Lemma filter_counts (P : Ticket -> Prop) (f : Ticket -> bool) (df : DataFrame) :
  (forall t, f t = true <-> P t) -> counts P df (length (List.filter f df)).
Proof.
  intros Hf. induction df as [|t df IH]; simpl.
  - constructor.
  - destruct (f t) eqn:E; simpl.
    + apply counts_hit; [now apply Hf | exact IH].
    + apply counts_miss; [|exact IH]. intros HP. apply Hf in HP. congruence.
Qed.

Lemma counts_functional (P : Ticket -> Prop) (df : DataFrame) (n m : nat) :
  counts P df n -> counts P df m -> n = m.
Proof.
  intros Hn. revert m. induction Hn as [|t df n Ht _ IH|t df n Ht _ IH];
    intros m Hm; inversion Hm; subst; auto; contradiction.
Qed.

Lemma total_cat_counts (df : DataFrame) (cat : string) :
  counts (in_category cat) df (total_cat df cat).
Proof. apply filter_counts. intros t. apply type_contains_spec. Qed.

Lemma user_cat_le_total (df : DataFrame) (u cat : string) :
  user_cat df u cat <= total_cat df cat.
Proof. unfold user_cat, total_cat. apply List.filter_length_le. Qed.

Lemma perc_total (df : DataFrame) (u cat : string) : exists p, perc df u cat = Ok p.
Proof. apply percentage_total. Qed.

(** The loop never raises and emits one row per category, in order. *)
Lemma summary_rows (df : DataFrame) (u : string) (cats : list string) :
  exists rows, summary df u cats = Ok rows /\ Forall2 (row_for df u) cats rows.
Proof.
  induction cats as [|cat cats (rows & E & IH)]; simpl.
  - exists []. split; [reflexivity | constructor].
  - destruct (perc_total df u cat) as [p Hp]. rewrite Hp, E.
    eexists. split; [reflexivity|]. constructor; [|exact IH].
    repeat split; simpl. now exists p.
Qed.

Lemma rows_for_in (df : DataFrame) (u : string) (cats : list string)
      (rows : list summary_row) (row : summary_row) :
  Forall2 (row_for df u) cats rows -> In row rows ->
  In (Category row) cats /\ row_for df u (Category row) row.
Proof.
  intros F. induction F as [|cat r cats' rows' Hr _ IH]; intros Hin; [contradiction|].
  destruct Hin as [<-|Hin].
  - assert (Hc : Category r = cat) by apply Hr. rewrite Hc. split; [now left | exact Hr].
  - destruct (IH Hin) as [H1 H2]. split; [now right | exact H2].
Qed.

Lemma summary_row_in (df : DataFrame) (u : string) (cats : list string)
      (rows : list summary_row) (row : summary_row) :
  summary df u cats = Ok rows -> In row rows ->
  In (Category row) cats /\ row_for df u (Category row) row.
Proof.
  intros E Hin. destruct (summary_rows df u cats) as (rows' & E' & F).
  rewrite E in E'. injection E' as <-. now apply (rows_for_in df u cats rows).
Qed.

(** ** Effects *)

Lemma load_body_run (cfg : secrets) (w : world) :
  load_h1_data_body cfg w = (decode (server w (calls w)), after_post cfg w).
Proof.
  unfold load_h1_data_body, decode, bind, post, lift, json, ret, raise.
  destruct (Requests.raise_for_status (server w (calls w))); [|reflexivity].
  destruct (Requests.json (server w (calls w))); reflexivity.
Qed.

(** A miss of the cache: the function runs; a value is stored with the
    current clock reading, an exception stores nothing. *)
Lemma load_miss (cfg : secrets) (now : Z) (w : world) :
  match memo w with
  | Some (_, t0) => (t0 + 3600 <= now)%Z
  | None => True
  end ->
  load_h1_data cfg now w =
  match decode (server w (calls w)) with
  | Ok df => (Ok df, {| server := server w; sent := search_request cfg :: sent w;
                        memo := Some (df, now); page := page w |})
  | Raise e => (Raise e, after_post cfg w)
  end.
Proof.
  intros H. unfold load_h1_data, cache_data. rewrite load_body_run.
  destruct (memo w) as [[v t0]|].
  - replace (now <? t0 + 3600)%Z with false by (symmetry; apply Z.ltb_ge; exact H).
    destruct (decode _); reflexivity.
  - destruct (decode _); reflexivity.
Qed.

(** A hit: the stored table is returned and the world is left as it is. *)
Lemma load_hit (cfg : secrets) (now t0 : Z) (v : DataFrame) (w : world) :
  memo w = Some (v, t0) -> (now < t0 + 3600)%Z ->
  load_h1_data cfg now w = (Ok v, w).
Proof.
  intros Hm Hlt. unfold load_h1_data, cache_data. rewrite Hm.
  now replace (now <? t0 + 3600)%Z with true by (symmetry; apply Z.ltb_lt; exact Hlt).
Qed.

Lemma load_cases (cfg : secrets) (now : Z) (w : world) :
  (exists v t0, memo w = Some (v, t0) /\ (now < t0 + 3600)%Z) \/
  match memo w with
  | Some (_, t0) => (t0 + 3600 <= now)%Z
  | None => True
  end.
Proof.
  destruct (memo w) as [[v t0]|]; [|now right].
  destruct (Z.lt_ge_cases now (t0 + 3600)); [left; eauto | now right].
Qed.

(** Loading neither reads nor writes the page. *)
Lemma load_frame (cfg : secrets) (now : Z) (p : list element) (w : world) :
  load_h1_data cfg now (with_page p w) =
  (fst (load_h1_data cfg now w), with_page p (snd (load_h1_data cfg now w))).
Proof.
  destruct (load_cases cfg now w) as [(v & t0 & Hm & Hlt)|Hmiss].
  - rewrite (load_hit cfg now t0 v w Hm Hlt).
    now rewrite (load_hit cfg now t0 v (with_page p w) Hm Hlt).
  - rewrite (load_miss cfg now w Hmiss), (load_miss cfg now (with_page p w) Hmiss).
    change (server (with_page p w) (calls (with_page p w))) with (server w (calls w)).
    destruct (decode _); reflexivity.
Qed.

Lemma dashboard_run (df : DataFrame) (pick : list string -> string) (w : world) :
  exists share rows,
    share_percentage df (pick (team_members df)) = Ok share /\
    summary df (pick (team_members df)) categories = Ok rows /\
    dashboard df pick w =
    (Ok tt, with_page (dashboard_page df (pick (team_members df)) share rows ++ page w) w).
Proof.
  destruct (percentage_total (user_closed_display df (pick (team_members df)))
                             (total_display_pool df)) as [share Hs].
  change (share_percentage df (pick (team_members df)) = Ok share) in Hs.
  destruct (summary_rows df (pick (team_members df)) categories) as (rows & Hr & _).
  exists share, rows. split; [exact Hs|]. split; [exact Hr|].
  unfold dashboard, bind, show, lift. cbn zeta. rewrite Hs. cbn iota beta.
  rewrite Hr. reflexivity.
Qed.

Lemma run_unfold (cfg : secrets) (now : Z) (pick : list string -> string) (w : world) :
  run cfg now pick w =
  match load_h1_data cfg now (with_page banner w) with
  | (Ok df, w1) =>
      if empty df
      then (Ok tt, with_page (warning "No tickets found for the current OKR period."
                                :: page w1) w1)
      else dashboard df pick w1
  | (Raise e, w1) => (Raise e, w1)
  end.
Proof.
  unfold run, app, bind.
  change (show (title "🏆 H1 2026 Performance Tracker") (rerun w))
    with (Ok tt, with_page [title "🏆 H1 2026 Performance Tracker"] w).
  cbn iota beta.
  change (show (info _) (with_page _ w)) with (Ok tt, with_page banner w).
  cbn iota beta.
  destruct (load_h1_data cfg now (with_page banner w)) as [[df|e] w1]; [|reflexivity].
  destruct (empty df); reflexivity.
Qed.

(** ** Category totals *)

(** The example scenario of the specification: with Alice selected, the
    breakdown is Display 2 / 1 / 50.0%, Video 1 / 1 / 100.0%, and 0 / 0 /
    0.0% for Pixel and Bespoke. *)
Example example_summary :
  summary example_snapshot "Alice" categories =
  Ok [{| Category := "Display"; Team_Total := 2; Your_Completed := 1;
         Current_Share := "50.0%" |};
      {| Category := "Video"; Team_Total := 1; Your_Completed := 1;
         Current_Share := "100.0%" |};
      {| Category := "Pixel"; Team_Total := 0; Your_Completed := 0;
         Current_Share := "0.0%" |};
      {| Category := "Bespoke"; Team_Total := 0; Your_Completed := 0;
         Current_Share := "0.0%" |}].
Proof. vm_compute. reflexivity. Qed.

Lemma not_in_category (cat : string) (t : Ticket) :
  type_contains cat t = false -> ~ in_category cat t.
Proof. intros E H. apply type_contains_spec in H. congruence. Qed.

(** The characters outside ASCII that differ from a letter of a label in
    case only are matched like the letter itself. *)
Example case_variants_outside_ascii_are_counted :
  map (Py.search_ci "Display") ["Dısplay"; "DİSPLAY"; "Diſplay"; "Dis play"]
  = [true; true; true; false] /\
  map (Py.search_ci "Bespoke") ["beſpoKe"; "BESPOKE"; "bespoĸe"]
  = [true; true; false].
Proof. split; reflexivity. Qed.

(** C1.  The category labels are ASCII and free of regular-expression
    metacharacters, so [str.contains] searches them literally.  In every
    snapshot, the headline pool and the [Team Total] of each breakdown row
    count exactly the tickets whose [type] contains the category label as a
    case-insensitive substring, each such ticket once.  A substring counts
    when it spells the label character by character up to case, two
    characters being the same up to case when Unicode gives them the same
    lower case or the same upper case; so "Dısplay", "DİSPLAY" and
    "Diſplay" contain "Display".  Membership is not a partition: there are
    tickets that belong to no category, to exactly one, and to two of
    them. *)
Theorem team_total_counts_ci_substring_matches
        (df : DataFrame) (selected_user : string) :
  forallb Py.literal categories = true /\
  counts (in_category "Display") df (total_display_pool df) /\
  (exists rows,
      summary df selected_user categories = Ok rows /\
      Forall2 (fun cat row =>
                 Category row = cat /\
                 counts (in_category cat) df (Team_Total row))
              categories rows) /\
  (exists t0 t1 t2 : Ticket,
      (forall cat, In cat categories -> ~ in_category cat t0) /\
      (forall cat, In cat categories -> in_category cat t1 <-> cat = "Video") /\
      in_category "Display" t2 /\ in_category "Video" t2).
Proof.
  split; [reflexivity|].
  split; [apply (total_cat_counts df "Display")|]. split.
  - destruct (summary_rows df selected_user categories) as (rows & E & F).
    exists rows. split; [exact E|].
    apply (Forall2_impl _ _ _ _ F). intros cat row (Hc & Ht & _).
    split; [exact Hc|]. rewrite Ht. apply total_cat_counts.
  - exists {| key := "TKTS-7"; type := "Audio"; assignee := "Bob";
              status := "Open"; is_closed := false |},
           {| key := "TKTS-8"; type := "UK - VIDEO"; assignee := "Bob";
              status := "Open"; is_closed := false |},
           {| key := "TKTS-9"; type := "Video display"; assignee := "Bob";
              status := "Open"; is_closed := false |}.
    split; [|split; [|split]].
    + intros cat Hcat. apply not_in_category.
      simpl in Hcat. destruct Hcat as [<-|[<-|[<-|[<-|[]]]]]; reflexivity.
    + intros cat Hcat. split.
      * intros H. simpl in Hcat.
        destruct Hcat as [<-|[<-|[<-|[<-|[]]]]]; try reflexivity;
          apply type_contains_spec in H; discriminate H.
      * intros ->. apply type_contains_spec. reflexivity.
    + apply type_contains_spec. reflexivity.
    + apply type_contains_spec. reflexivity.
Qed.

(** ** Normalisation *)

(** C2.  The [is_closed] flag of a normalised record is [true] exactly when
    the lower-cased status name is "closed", "done" or "resolved", and
    [false] for every other status name. *)
Theorem is_closed_iff_completion_status (i : Jira.issue) :
  (is_closed (normalize i) = true <->
   Py.lower (Jira.name (Jira.status (Jira.fields i))) = "closed" \/
   Py.lower (Jira.name (Jira.status (Jira.fields i))) = "done" \/
   Py.lower (Jira.name (Jira.status (Jira.fields i))) = "resolved") /\
  (is_closed (normalize i) = false <->
   Py.lower (Jira.name (Jira.status (Jira.fields i))) <> "closed" /\
   Py.lower (Jira.name (Jira.status (Jira.fields i))) <> "done" /\
   Py.lower (Jira.name (Jira.status (Jira.fields i))) <> "resolved") /\
  is_closed (normalize i) =
  str_in (Py.lower (status (normalize i))) ["closed"; "done"; "resolved"].
Proof.
  set (s := Py.lower (Jira.name (Jira.status (Jira.fields i)))).
  assert (Hiff : is_closed (normalize i) = true <->
                 s = "closed" \/ s = "done" \/ s = "resolved").
  { change (is_closed (normalize i)) with (str_in s completion_statuses).
    rewrite str_in_spec. simpl. intuition congruence. }
  split; [exact Hiff|]. split; [|reflexivity].
  destruct (is_closed (normalize i)).
  - split; [discriminate|]. intros (H1 & H2 & H3).
    destruct (proj1 Hiff eq_refl) as [H|[H|H]]; contradiction.
  - split; [|reflexivity]. intros _.
    repeat split; intros H; assert (false = true) by (apply Hiff; auto); discriminate.
Qed.

Example is_closed_examples :
  map (fun st => is_closed (normalize (mk_issue "TKTS-1" "Display" None st)))
      ["Done"; "CLOSED"; "resolved"; "Open"; "In Progress"; "Won't Do"; "Done "; ""]
  = [true; true; true; false; false; false; false; false].
Proof. reflexivity. Qed.

(** ** Shares *)

(** C3.  When no ticket matches a category, its share is the integer [0]:
    the expression returns a value, so no [ZeroDivisionError] is raised.
    This holds for the breakdown row of the category, shown as "0.0%", and
    for the headline percentage when the category is "Display". *)
Theorem zero_total_gives_zero_share
        (df : DataFrame) (selected_user cat : string) :
  total_cat df cat = 0 ->
  perc df selected_user cat = Ok (PyInt 0) /\
  (cat = "Display" ->
   share_percentage df selected_user = Ok (PyInt 0) /\
   format_percent (PyInt 0) = "0.0%") /\
  (forall rows row,
      summary df selected_user categories = Ok rows ->
      In row rows -> Category row = cat ->
      Team_Total row = 0 /\ Your_Completed row = 0 /\ Current_Share row = "0.0%").
Proof.
  intros H0.
  assert (Hp : perc df selected_user cat = Ok (PyInt 0)).
  { unfold perc. rewrite H0. apply percentage_zero. }
  split; [exact Hp|]. split.
  - intros ->. split; [exact Hp | reflexivity].
  - intros rows row E Hin Hc.
    destruct (summary_row_in df selected_user categories rows row E Hin)
      as (_ & _ & Ht & Hu & p & Hp' & Hs).
    rewrite Hc in Ht, Hu, Hp'. rewrite Hp in Hp'. injection Hp' as <-.
    pose proof (user_cat_le_total df selected_user cat) as Hle.
    rewrite Ht, Hu, Hs. rewrite H0 in Hle |- *.
    split; [reflexivity|]. split; [lia | reflexivity].
Qed.

Lemma zero_total_gives_zero_share_witness :
  total_cat example_snapshot "Pixel" = 0 /\
  perc example_snapshot "Alice" "Pixel" = Ok (PyInt 0).
Proof.
  split; [reflexivity|].
  apply (zero_total_gives_zero_share example_snapshot "Alice" "Pixel"). reflexivity.
Defined.

(** C4.  For a category with at least one ticket, the tickets completed by
    the selected assignee are among the tickets of the category, so their
    number is at most the team total, and the share is a float between 0
    and 100. *)
Theorem share_between_0_and_100
        (df : DataFrame) (selected_user cat : string) :
  0 < total_cat df cat ->
  user_cat df selected_user cat <= total_cat df cat /\
  (forall t, In t (List.filter (closed_by selected_user) (cat_pool df cat)) ->
             In t (cat_pool df cat)) /\
  exists x : Float.float,
    perc df selected_user cat = Ok (PyFloat x) /\ (0 <= x <= 100)%Q.
Proof.
  intros Hpos. pose proof (user_cat_le_total df selected_user cat) as Hle.
  split; [exact Hle|]. split.
  - intros t Ht. apply List.filter_In in Ht. apply Ht.
  - unfold perc. now apply percentage_range.
Qed.

Lemma share_between_0_and_100_witness :
  0 < total_cat example_snapshot "Display" /\
  user_cat example_snapshot "Alice" "Display" <= total_cat example_snapshot "Display".
Proof.
  assert (H : 0 < total_cat example_snapshot "Display") by (vm_compute; lia).
  split; [exact H|].
  apply (share_between_0_and_100 example_snapshot "Alice" "Display" H).
Defined.

(** C5.  The headline metrics are the breakdown row of "Display", the first
    category: the pool, the completed count and the share computed for the
    headline equal the row's [Team Total], [Your Completed] and share, and
    the page shows the same numbers in the metric, the two counts and the
    first row of the table. *)
Theorem headline_is_display_row
        (df : DataFrame) (pick : list string -> string) (w : world) :
  exists (share : pynum) (row : summary_row) (rest : list summary_row) (w' : world),
    share_percentage df (pick (team_members df)) = Ok share /\
    summary df (pick (team_members df)) categories = Ok (row :: rest) /\
    Category row = "Display" /\
    Team_Total row = total_display_pool df /\
    Your_Completed row = user_closed_display df (pick (team_members df)) /\
    perc df (pick (team_members df)) "Display" = Ok share /\
    Current_Share row = format_percent share /\
    dashboard df pick w = (Ok tt, w') /\
    In (metric "Your Display Market Share" (Current_Share row)) (page w') /\
    In (write ("**Total Pool:** " +:+ pretty (Team_Total row) +:+
               " Display TKTS raised team-wide.")) (page w') /\
    In (write ("**Your Work:** " +:+ pretty (Your_Completed row) +:+
               " tickets completed.")) (page w') /\
    In (table (row :: rest)) (page w').
Proof.
  destruct (dashboard_run df pick w) as (share & rows & Hs & Hr & Hd).
  set (u := pick (team_members df)) in *.
  destruct (summary_rows df u categories) as (rows' & Hr' & F).
  rewrite Hr in Hr'. injection Hr' as <-.
  inversion F as [|cat row cats rest (Hc & Ht & Hu & p & Hp & Hf) F']; subst.
  change (perc df u "Display") with (share_percentage df u) in Hp.
  rewrite Hs in Hp. injection Hp as <-.
  exists share, row, rest. eexists.
  repeat (split; [eassumption || reflexivity|]).
  rewrite Hf, Ht, Hu. simpl. tauto.
Qed.

(** ** The empty snapshot *)

(** C6.  When the fetch yields an empty table, the run ends after the
    banner with the single warning "No tickets found for the current OKR
    period.": the page holds no select box, metric, count, chart or table,
    and the run changes nothing beyond what the fetch did. *)
Theorem empty_snapshot_short_circuits
        (cfg : secrets) (now : Z) (pick : list string -> string) (w w1 : world)
        (df : DataFrame) :
  load_h1_data cfg now (rerun w) = (Ok df, w1) ->
  empty df = true ->
  exists w',
    run cfg now pick w = (Ok tt, w') /\
    page w' = [warning "No tickets found for the current OKR period.";
               info "Tracking tickets created from Go-Live Date: **2026-02-01** onwards.";
               title "🏆 H1 2026 Performance Tracker"] /\
    sent w' = sent w1 /\ memo w' = memo w1 /\
    (forall label value, ~ In (metric label value) (page w')) /\
    (forall body, ~ In (write body) (page w')) /\
    (forall share goal color, ~ In (altair_chart share goal color) (page w')) /\
    (forall label options, ~ In (selectbox label options) (page w')) /\
    (forall rows, ~ In (table rows) (page w')).
Proof.
  intros Hload Hempty. rewrite run_unfold.
  change (with_page banner w) with (with_page banner (rerun w)).
  rewrite load_frame, Hload. cbn [fst snd]. rewrite Hempty.
  eexists. split; [reflexivity|]. cbn [page with_page sent memo banner].
  repeat split; try reflexivity; intros; simpl; intuition discriminate.
Qed.

Lemma empty_snapshot_short_circuits_witness :
  exists w',
    run example_cfg 0 (fun options => hd "" options) (fresh_world (ok_response []))
    = (Ok tt, w') /\
    page w' = [warning "No tickets found for the current OKR period.";
               info "Tracking tickets created from Go-Live Date: **2026-02-01** onwards.";
               title "🏆 H1 2026 Performance Tracker"].
Proof.
  destruct (empty_snapshot_short_circuits
              example_cfg 0 (fun options => hd "" options)
              (fresh_world (ok_response []))
              (snd (load_h1_data example_cfg 0 (rerun (fresh_world (ok_response [])))))
              [] eq_refl eq_refl) as (w' & Hrun & Hpage & _).
  exists w'. split; [exact Hrun | exact Hpage].
Defined.

(** ** Team members *)

Lemma unique_from_In (seen xs : list string) (x : string) :
  In x (unique_from seen xs) <-> In x xs /\ ~ In x seen.
Proof.
  revert seen. induction xs as [|y xs IH]; intros seen; simpl; [tauto|].
  destruct (str_in y seen) eqn:E.
  - apply str_in_spec in E. rewrite IH. split.
    + tauto.
    + intros [[->|H] Hn]; [contradiction | tauto].
  - assert (Hy : ~ In y seen) by (rewrite <- str_in_spec; congruence).
    simpl. rewrite IH. simpl. destruct (String.string_dec y x) as [->|Hne]; tauto.
Qed.

Lemma unique_from_NoDup (seen xs : list string) : List.NoDup (unique_from seen xs).
Proof.
  revert seen. induction xs as [|y xs IH]; intros seen; simpl; [constructor|].
  destruct (str_in y seen); [apply IH|].
  constructor; [|apply IH]. rewrite unique_from_In. simpl. tauto.
Qed.

Lemma unique_In (xs : list string) (x : string) : In x (unique xs) <-> In x xs.
Proof. unfold unique. rewrite unique_from_In. simpl. tauto. Qed.

Lemma sorted_In (xs : list string) (x : string) : In x (sorted xs) <-> In x xs.
Proof.
  unfold sorted. pose proof (merge_sort_Permutation String.le xs) as HP.
  split; apply Permutation.Permutation_in; [exact HP | symmetry; exact HP].
Qed.

Lemma team_members_In (df : DataFrame) (a : string) :
  In a (team_members df) <-> exists t, In t df /\ assignee t = a.
Proof.
  unfold team_members. rewrite sorted_In, unique_In, in_map_iff.
  split; intros (t & H1 & H2); exists t; auto.
Qed.

Lemma team_members_sorted (df : DataFrame) :
  StronglySorted String.le (team_members df).
Proof. apply StronglySorted_merge_sort; apply _. Qed.

Lemma team_members_NoDup (df : DataFrame) : List.NoDup (team_members df).
Proof.
  unfold team_members, sorted, unique.
  apply (Permutation.Permutation_NoDup
           (l := unique_from [] (map assignee df))).
  - symmetry. apply merge_sort_Permutation.
  - apply unique_from_NoDup.
Qed.

Example example_team_members :
  team_members (map normalize
                  (mk_issue "TKTS-4" "Pixel" None "Open" ::
                   mk_issue "TKTS-5" "Pixel" (Some "alice") "Open" :: example_issues))
  = ["Alice"; "Bob"; "Unassigned"; "alice"].
Proof. reflexivity. Qed.

(** C10.  For a non-empty snapshot the run shows one select box, and its
    options are the assignee values of the snapshot, each exactly once, in
    ascending lexicographic order. *)
Theorem selectbox_lists_sorted_distinct_assignees
        (cfg : secrets) (now : Z) (pick : list string -> string) (w w1 : world)
        (df : DataFrame) :
  load_h1_data cfg now (rerun w) = (Ok df, w1) ->
  empty df = false ->
  exists w',
    run cfg now pick w = (Ok tt, w') /\
    In (selectbox "Select Team Member to Track:" (team_members df)) (page w') /\
    (forall label options,
        In (selectbox label options) (page w') -> options = team_members df) /\
    StronglySorted String.le (team_members df) /\
    List.NoDup (team_members df) /\
    (forall a, In a (team_members df) <-> exists t, In t df /\ assignee t = a).
Proof.
  intros Hload Hne. rewrite run_unfold.
  change (with_page banner w) with (with_page banner (rerun w)).
  rewrite load_frame, Hload. cbn [fst snd]. rewrite Hne.
  destruct (dashboard_run df pick (with_page banner w1)) as (share & rows & _ & _ & Hd).
  rewrite Hd. eexists. split; [reflexivity|].
  split; [|split; [|split; [|split]]].
  - simpl. tauto.
  - intros label options H. simpl in H.
    repeat (destruct H as [H|H]; [try discriminate H|]); try contradiction.
    now injection H as _ <-.
  - apply team_members_sorted.
  - apply team_members_NoDup.
  - apply team_members_In.
Qed.

Lemma selectbox_lists_sorted_distinct_assignees_witness :
  exists w',
    run example_cfg 0 (fun options => hd "" options)
        (fresh_world (ok_response example_issues)) = (Ok tt, w') /\
    In (selectbox "Select Team Member to Track:" ["Alice"; "Bob"]) (page w').
Proof.
  destruct (selectbox_lists_sorted_distinct_assignees
              example_cfg 0 (fun options => hd "" options)
              (fresh_world (ok_response example_issues))
              (snd (load_h1_data example_cfg 0
                      (rerun (fresh_world (ok_response example_issues)))))
              example_snapshot eq_refl eq_refl) as (w' & Hrun & Hbox & _).
  exists w'. split; [exact Hrun | exact Hbox].
Defined.

(** ** Unassigned tickets *)

(** Adding one ticket to a snapshot raises the completed count of a user
    in a category by one when the ticket is in the category, assigned to
    that user and closed, and leaves it alone otherwise. *)
Lemma user_cat_insert (df1 df2 : DataFrame) (t : Ticket) (u cat : string) :
  user_cat (df1 ++ t :: df2) u cat =
  user_cat (df1 ++ df2) u cat +
  (if type_contains cat t && closed_by u t then 1 else 0).
Proof.
  unfold user_cat, cat_pool. rewrite !List.filter_app, !length_app. simpl.
  destruct (type_contains cat t); simpl; [|lia].
  destruct (closed_by u t); simpl; lia.
Qed.

Lemma decode_ok (code : Z) (l : list Jira.issue) :
  ~ (400 <= code < 600)%Z ->
  decode {| Requests.status_code := code;
            Requests.json := Some {| Jira.issues := Some l |} |}
  = Ok (map normalize l).
Proof.
  intros H. unfold decode, Requests.raise_for_status. simpl.
  destruct (Z.leb_spec 400 code), (Z.ltb_spec code 600); simpl; try reflexivity; lia.
Qed.

(** C7.  A raw record whose assignee is null is normalised to the assignee
    "Unassigned".  Nothing is raised for it: a response that carries the
    record decodes to a table with its row.  The row is treated like that
    of any named assignee: "Unassigned" is one of the selectable team
    members, and the row counts towards the completed tickets of
    "Unassigned" under the same rule as for any other user. *)
Theorem missing_assignee_becomes_unassigned (i : Jira.issue) :
  Jira.assignee (Jira.fields i) = None ->
  assignee (normalize i) = "Unassigned" /\
  (forall (cfg : secrets) (w : world) (l1 l2 : list Jira.issue),
      server w (calls w) = ok_response (l1 ++ i :: l2) ->
      fst (load_h1_data_body cfg w)
      = Ok (map normalize l1 ++ normalize i :: map normalize l2)) /\
  (forall df, In (normalize i) df -> In "Unassigned" (team_members df)) /\
  (forall u, closed_by u (normalize i) = true <->
             u = "Unassigned" /\ is_closed (normalize i) = true) /\
  (forall df1 df2 cat,
      user_cat (df1 ++ normalize i :: df2) "Unassigned" cat =
      user_cat (df1 ++ df2) "Unassigned" cat +
      (if type_contains cat (normalize i) && is_closed (normalize i) then 1 else 0)).
Proof.
  intros Hnone.
  assert (Ha : assignee (normalize i) = "Unassigned").
  { unfold normalize. simpl. now rewrite Hnone. }
  split; [exact Ha|]. split; [|split; [|split]].
  - intros cfg w l1 l2 Hr. rewrite load_body_run. cbn [fst]. rewrite Hr.
    unfold ok_response. rewrite decode_ok by lia.
    now rewrite map_app.
  - intros df Hin. apply team_members_In. now exists (normalize i).
  - intros u. rewrite closed_by_spec, Ha. intuition congruence.
  - intros df1 df2 cat. rewrite user_cat_insert. unfold closed_by.
    rewrite Ha. reflexivity.
Qed.

Lemma missing_assignee_becomes_unassigned_witness :
  assignee (normalize (mk_issue "TKTS-4" "Pixel" None "Resolved")) = "Unassigned".
Proof.
  exact (proj1 (missing_assignee_becomes_unassigned
                  (mk_issue "TKTS-4" "Pixel" None "Resolved") eq_refl)).
Defined.

(** ** The fetch *)

Lemma raise_for_status_error (r : Requests.response) :
  (400 <= Requests.status_code r < 600)%Z ->
  Requests.raise_for_status r = Raise (HTTPError (Requests.status_code r)).
Proof.
  intros [H1 H2]. unfold Requests.raise_for_status.
  destruct (Z.leb_spec 400 (Requests.status_code r)),
           (Z.ltb_spec (Requests.status_code r) 600); simpl; try reflexivity; lia.
Qed.

Lemma raise_for_status_pass (r : Requests.response) :
  ~ (400 <= Requests.status_code r < 600)%Z ->
  Requests.raise_for_status r = Ok tt.
Proof.
  intros H. unfold Requests.raise_for_status.
  destruct (Z.leb_spec 400 (Requests.status_code r)),
           (Z.ltb_spec (Requests.status_code r) 600); simpl; try reflexivity; lia.
Qed.

(** C8, as stated, fails: a response whose status is 300, not a 2xx code,
    raises nothing and is decoded into a table. *)
Lemma non_2xx_status_can_return_data :
  ~ (200 <= Requests.status_code multiple_choices_response < 300)%Z /\
  load_h1_data_body example_cfg (fresh_world multiple_choices_response)
  = (Ok example_snapshot, after_post example_cfg (fresh_world multiple_choices_response)) /\
  load_h1_data example_cfg 0 (fresh_world multiple_choices_response)
  = (Ok example_snapshot,
     {| server := fun _ => multiple_choices_response;
        sent := [search_request example_cfg];
        memo := Some (example_snapshot, 0%Z);
        page := [] |}).
Proof.
  split; [simpl; lia|]. split; reflexivity.
Qed.

(** C8, amended.  The fetch sends exactly one request and never retries.
    When the status of the response is a 4xx or 5xx code, the fetch raises
    [HTTPError], returns no table and stores nothing in the cache.  For
    every other status, the 2xx codes among them, the status check raises
    nothing and the result is the decoded body. *)
Theorem http_error_status_raises (cfg : secrets) (w : world) :
  calls (snd (load_h1_data_body cfg w)) = S (calls w) /\
  ((400 <= Requests.status_code (server w (calls w)) < 600)%Z ->
   load_h1_data_body cfg w
   = (Raise (HTTPError (Requests.status_code (server w (calls w)))), after_post cfg w) /\
   forall now,
     match memo w with
     | Some (_, t0) => (t0 + 3600 <= now)%Z
     | None => True
     end ->
     load_h1_data cfg now w
     = (Raise (HTTPError (Requests.status_code (server w (calls w)))), after_post cfg w)) /\
  (~ (400 <= Requests.status_code (server w (calls w)) < 600)%Z ->
   Requests.raise_for_status (server w (calls w)) = Ok tt /\
   load_h1_data_body cfg w
   = (match Requests.json (server w (calls w)) with
      | None => Raise JSONDecodeError
      | Some body => Ok (map normalize (match Jira.issues body with
                                        | Some l => l
                                        | None => []
                                        end))
      end, after_post cfg w)) /\
  ((200 <= Requests.status_code (server w (calls w)) < 300)%Z ->
   Requests.raise_for_status (server w (calls w)) = Ok tt).
Proof.
  rewrite load_body_run. split; [reflexivity|]. split; [|split].
  - intros H. pose proof (raise_for_status_error _ H) as E.
    assert (D : decode (server w (calls w))
                = Raise (HTTPError (Requests.status_code (server w (calls w))))).
    { unfold decode. now rewrite E. }
    rewrite D. split; [reflexivity|].
    intros now Hmiss. rewrite (load_miss cfg now w Hmiss), D. reflexivity.
  - intros H. pose proof (raise_for_status_pass _ H) as E.
    split; [exact E|]. unfold decode. now rewrite E.
  - intros H. apply raise_for_status_pass. lia.
Qed.

Lemma http_error_status_raises_witness :
  load_h1_data_body example_cfg (fresh_world unauthorized_response)
  = (Raise (HTTPError 401), after_post example_cfg (fresh_world unauthorized_response)).
Proof.
  refine (proj1 (proj1 (proj2 (http_error_status_raises
                                 example_cfg (fresh_world unauthorized_response))) _)).
  simpl. lia.
Defined.

(** X1.  A fetch that raises ends the run with the same exception: the page
    stays at the banner and the exception reaches the hosting layer. *)
Theorem fetch_error_aborts_run
        (cfg : secrets) (now : Z) (pick : list string -> string) (w w1 : world)
        (e : exn) :
  load_h1_data cfg now (rerun w) = (Raise e, w1) ->
  run cfg now pick w = (Raise e, with_page banner w1).
Proof.
  intros Hload. rewrite run_unfold.
  change (with_page banner w) with (with_page banner (rerun w)).
  now rewrite load_frame, Hload.
Qed.

Lemma fetch_error_aborts_run_witness :
  fst (run example_cfg 0 (fun options => hd "" options)
           (fresh_world unauthorized_response))
  = Raise (HTTPError 401).
Proof.
  rewrite (fetch_error_aborts_run
             example_cfg 0 (fun options => hd "" options)
             (fresh_world unauthorized_response)
             (after_post example_cfg (fresh_world unauthorized_response))
             (HTTPError 401) eq_refl).
  reflexivity.
Defined.

(** ** The cache *)

(** C9.  After an invocation that returned a table, the cache holds that
    table with a time stamp [t0].  Every invocation before [t0 + 3600]
    returns the same table and leaves the world, and with it the number of
    network calls, unchanged.  An invocation at or after [t0 + 3600] sends
    one new request; when that fetch returns a table, the table replaces the
    cached one, stamped with the time of the invocation. *)
Theorem cache_serves_snapshot_within_ttl
        (cfg : secrets) (t1 : Z) (w w1 : world) (df : DataFrame) :
  load_h1_data cfg t1 w = (Ok df, w1) ->
  exists t0 : Z,
    memo w1 = Some (df, t0) /\
    (t1 < t0 + 3600)%Z /\
    (forall t2, (t2 < t0 + 3600)%Z ->
                load_h1_data cfg t2 w1 = (Ok df, w1) /\
                calls (snd (load_h1_data cfg t2 w1)) = calls w1) /\
    (forall t2, (t0 + 3600 <= t2)%Z ->
                exists r w2,
                  load_h1_data cfg t2 w1 = (r, w2) /\
                  r = decode (server w1 (calls w1)) /\
                  calls w2 = S (calls w1) /\
                  (forall df', r = Ok df' -> memo w2 = Some (df', t2)) /\
                  (forall e, r = Raise e -> memo w2 = memo w1)).
Proof.
  intros Hload.
  assert (Hm : exists t0, memo w1 = Some (df, t0) /\ (t1 < t0 + 3600)%Z).
  { destruct (load_cases cfg t1 w) as [(v & t0 & Hm & Hlt)|Hmiss].
    - rewrite (load_hit cfg t1 t0 v w Hm Hlt) in Hload.
      injection Hload as <- <-. now exists t0.
    - rewrite (load_miss cfg t1 w Hmiss) in Hload.
      destruct (decode (server w (calls w))); [|discriminate].
      injection Hload as <- <-. exists t1. split; [reflexivity | lia]. }
  destruct Hm as (t0 & Hm & Hlt). exists t0.
  split; [exact Hm|]. split; [exact Hlt|]. split.
  - intros t2 H2. rewrite (load_hit cfg t2 t0 df w1 Hm H2). split; reflexivity.
  - intros t2 H2.
    assert (Hmiss : match memo w1 with
                    | Some (_, t) => (t + 3600 <= t2)%Z
                    | None => True
                    end) by (rewrite Hm; exact H2).
    rewrite (load_miss cfg t2 w1 Hmiss).
    destruct (decode (server w1 (calls w1))) as [df'|e]; eexists; eexists.
    + split; [reflexivity|]. split; [reflexivity|]. split; [reflexivity|].
      split; [intros ? [= <-]; reflexivity | discriminate].
    + split; [reflexivity|]. split; [reflexivity|]. split; [reflexivity|].
      split; [discriminate | reflexivity].
Qed.

Lemma cache_serves_snapshot_within_ttl_witness :
  exists t0 : Z,
    memo (snd (load_h1_data example_cfg 0 (fresh_world (ok_response example_issues))))
    = Some (example_snapshot, t0).
Proof.
  destruct (cache_serves_snapshot_within_ttl
              example_cfg 0 (fresh_world (ok_response example_issues))
              (snd (load_h1_data example_cfg 0 (fresh_world (ok_response example_issues))))
              example_snapshot eq_refl) as (t0 & Hm & _).
  exists t0. exact Hm.
Defined.

Example cache_scenario :
  let w0 := fresh_world (ok_response example_issues) in
  let w1 := snd (load_h1_data example_cfg 100 w0) in
  let w2 := snd (load_h1_data example_cfg 3699 w1) in
  let w3 := snd (load_h1_data example_cfg 3700 w2) in
  (calls w0, calls w1, calls w2, calls w3) = (0, 1, 1, 2) /\
  (option_map snd (memo w1), option_map snd (memo w2), option_map snd (memo w3))
  = (Some 100%Z, Some 100%Z, Some 3700%Z).
Proof. split; reflexivity. Qed.

(** * Further properties of the script *)

(** ** Row order and team members *)

Lemma filter_Permutation_bool {A} (f : A -> bool) (l l' : list A) :
  Permutation l l' -> Permutation (List.filter f l) (List.filter f l').
Proof.
  induction 1 as [|x l l' _ IH|x y l|l l' l'' _ IH1 _ IH2]; simpl.
  - constructor.
  - destruct (f x); [now constructor | exact IH].
  - destruct (f x), (f y); try reflexivity. apply perm_swap.
  - now transitivity (List.filter f l').
Qed.

Lemma total_cat_perm (df df' : DataFrame) (cat : string) :
  Permutation df df' -> total_cat df cat = total_cat df' cat.
Proof.
  intros H. unfold total_cat, cat_pool.
  apply Permutation_length. now apply filter_Permutation_bool.
Qed.

Lemma user_cat_perm (df df' : DataFrame) (u cat : string) :
  Permutation df df' -> user_cat df u cat = user_cat df' u cat.
Proof.
  intros H. unfold user_cat, cat_pool.
  apply Permutation_length. now do 2 apply filter_Permutation_bool.
Qed.

Lemma summary_perm (df df' : DataFrame) (u : string) (cats : list string) :
  Permutation df df' -> summary df u cats = summary df' u cats.
Proof.
  intros H. induction cats as [|cat cats IH]; simpl; [reflexivity|].
  unfold perc. rewrite IH.
  now rewrite (total_cat_perm df df' cat H), (user_cat_perm df df' u cat H).
Qed.

(** Two snapshots with the same assignee values offer the same options. *)
Lemma team_members_ext (df df' : DataFrame) :
  (forall a, In a (map assignee df) <-> In a (map assignee df')) ->
  team_members df = team_members df'.
Proof.
  intros H.
  apply (StronglySorted_unique String.le).
  - apply team_members_sorted.
  - apply team_members_sorted.
  - apply Permutation.NoDup_Permutation; try apply team_members_NoDup.
    intros a. rewrite !team_members_In.
    specialize (H a). rewrite !in_map_iff in H.
    split; intros (t & Ht & Ea).
    + destruct (proj1 H (ex_intro _ t (conj Ea Ht))) as (t' & E' & H'). now exists t'.
    + destruct (proj2 H (ex_intro _ t (conj Ea Ht))) as (t' & E' & H'). now exists t'.
Qed.

Lemma team_members_perm (df df' : DataFrame) :
  Permutation df df' -> team_members df = team_members df'.
Proof.
  intros H. apply team_members_ext. intros a.
  assert (P : Permutation (map assignee df) (map assignee df')) by now apply Permutation_map.
  split; apply Permutation_in; [exact P | symmetry; exact P].
Qed.

Lemma empty_perm (df df' : DataFrame) : Permutation df df' -> empty df = empty df'.
Proof.
  intros H. destruct df, df'; try reflexivity.
  - now apply Permutation_nil_cons in H.
  - symmetry in H. now apply Permutation_nil_cons in H.
Qed.

(** X2.  The dashboard does not depend on the order in which the tracker
    lists the issues: two tables with the same rows in any order give the
    same options, the same headline share, the same breakdown rows and the
    same rendered page. *)
Theorem dashboard_ignores_row_order
        (df df' : DataFrame) (pick : list string -> string) (w : world) :
  Permutation df df' ->
  empty df = empty df' /\
  team_members df = team_members df' /\
  (forall u, share_percentage df u = share_percentage df' u) /\
  (forall u, summary df u categories = summary df' u categories) /\
  dashboard df pick w = dashboard df' pick w.
Proof.
  intros H.
  pose proof (team_members_perm df df' H) as HT.
  assert (HS : forall u, share_percentage df u = share_percentage df' u).
  { intros u. unfold share_percentage.
    change (user_closed_display df u) with (user_cat df u "Display").
    change (user_closed_display df' u) with (user_cat df' u "Display").
    change (total_display_pool df) with (total_cat df "Display").
    change (total_display_pool df') with (total_cat df' "Display").
    now rewrite (total_cat_perm df df' _ H), (user_cat_perm df df' u _ H). }
  split; [now apply empty_perm|]. split; [exact HT|]. split; [exact HS|].
  split; [intros u; now apply summary_perm|].
  destruct (dashboard_run df pick w) as (s1 & r1 & Hs1 & Hr1 & ->).
  destruct (dashboard_run df' pick w) as (s2 & r2 & Hs2 & Hr2 & ->).
  rewrite <- HT in Hs2, Hr2 |- *.
  rewrite <- HS, Hs1 in Hs2. injection Hs2 as <-.
  rewrite <- (summary_perm df df' _ _ H), Hr1 in Hr2. injection Hr2 as <-.
  unfold dashboard_page.
  change (user_closed_display df (pick (team_members df)))
    with (user_cat df (pick (team_members df)) "Display").
  change (user_closed_display df' (pick (team_members df)))
    with (user_cat df' (pick (team_members df)) "Display").
  change (total_display_pool df) with (total_cat df "Display").
  change (total_display_pool df') with (total_cat df' "Display").
  now rewrite (total_cat_perm df df' _ H), (user_cat_perm df df' _ _ H), HT.
Qed.

(** Sum of 0/1 indicators of one value over a duplicate-free list. *)
Lemma indicator_sum (a : string) (l : list string) :
  List.NoDup l ->
  list_sum (map (fun u => if String.eqb a u then 1 else 0) l)
  = if str_in a l then 1 else 0.
Proof.
  induction 1 as [|x l Hx _ IH]; simpl; [reflexivity|].
  rewrite IH. destruct (String.eqb_spec a x) as [->|Hne]; simpl.
  - destruct (str_in x l) eqn:E; [|reflexivity].
    apply str_in_spec in E. contradiction.
  - reflexivity.
Qed.

Lemma list_sum_add {A} (f g : A -> nat) (l : list A) :
  list_sum (map (fun u => f u + g u) l) = list_sum (map f l) + list_sum (map g l).
Proof. induction l as [|x l IH]; simpl; [reflexivity | rewrite IH; lia]. Qed.

Lemma list_sum_zero {A} (l : list A) : list_sum (map (fun _ => 0) l) = 0.
Proof. induction l; simpl; auto. Qed.

Lemma closed_sum (l : list string) (pool : DataFrame) :
  List.NoDup l ->
  (forall t, In t pool -> In (assignee t) l) ->
  list_sum (map (fun u => length (List.filter (closed_by u) pool)) l)
  = length (List.filter is_closed pool).
Proof.
  intros Hnd. induction pool as [|t pool IH]; intros Hin; simpl.
  - apply list_sum_zero.
  - assert (E : forall u, length (List.filter (closed_by u) (t :: pool))
                    = (if String.eqb (assignee t) u then if is_closed t then 1 else 0 else 0)
                      + length (List.filter (closed_by u) pool)).
    { intros u. simpl. unfold closed_by at 1.
      destruct (String.eqb (assignee t) u), (is_closed t); reflexivity. }
    simpl in E. rewrite (map_ext _ _ E), list_sum_add, IH
      by (intros t' Ht'; apply Hin; now right).
    assert (Ha : str_in (assignee t) l = true) by (apply str_in_spec, Hin; now left).
    destruct (is_closed t); simpl.
    + rewrite (indicator_sum _ _ Hnd), Ha. reflexivity.
    + rewrite (map_ext _ (fun _ => 0)), list_sum_zero; [reflexivity|].
      intros u. now destruct (String.eqb (assignee t) u).
Qed.

(** X4.  In every category the completed counts of the selectable team
    members add up to the number of closed tickets of the category: every
    closed ticket is credited to exactly one member, and the sum never
    exceeds the team total. *)
Theorem completed_counts_partition_closed_tickets (df : DataFrame) (cat : string) :
  list_sum (map (fun u => user_cat df u cat) (team_members df))
  = length (List.filter is_closed (cat_pool df cat)) /\
  list_sum (map (fun u => user_cat df u cat) (team_members df)) <= total_cat df cat.
Proof.
  assert (E : list_sum (map (fun u => user_cat df u cat) (team_members df))
              = length (List.filter is_closed (cat_pool df cat))).
  { unfold user_cat. apply closed_sum; [apply team_members_NoDup|].
    intros t Ht. apply team_members_In. exists t. split; [|reflexivity].
    apply List.filter_In in Ht. apply Ht. }
  split; [exact E|]. rewrite E. apply List.filter_length_le.
Qed.

(** ** Shares and the goal *)

Section ShareFacts.
Local Open Scope Q_scope.

Lemma round_pos_compat (x y : Q) :
  0 < x -> x == y -> Float.round_pos x == Float.round_pos y.
Proof.
  intros Hx E. apply Qle_antisym; apply round_pos_mono; lra.
Qed.

(** [round] sends equal rationals to the same canonical fraction. *)
Lemma round_compat (x y : Q) : x == y -> Float.round x = Float.round y.
Proof.
  intros E. unfold Float.round.
  assert (C : Qcompare x 0 = Qcompare y 0) by now rewrite E.
  rewrite <- C. destruct (Qcompare_spec x 0) as [H|H|H]; [reflexivity| |].
  - apply Qred_complete. apply Qopp_comp. apply round_pos_compat; lra.
  - apply Qred_complete. apply round_pos_compat; lra.
Qed.

Lemma ratio_mono (n1 n2 d : nat) :
  (0 < d)%nat -> (n1 <= n2)%nat ->
  inject_Z (Z.of_nat n1) / inject_Z (Z.of_nat d)
  <= inject_Z (Z.of_nat n2) / inject_Z (Z.of_nat d).
Proof.
  intros Hd Hn.
  assert (Hd' : 0 < inject_Z (Z.of_nat d)) by (rewrite <- (Zlt_Qlt 0); lia).
  apply Qmult_le_compat_r.
  - rewrite <- Zle_Qle. lia.
  - apply Qlt_le_weak, Qinv_lt_0_compat, Hd'.
Qed.

Lemma percentage_mono (n1 n2 d : nat) :
  (0 < d)%nat -> (n1 <= n2)%nat ->
  exists x1 x2,
    percentage n1 d = Ok (PyFloat x1) /\ percentage n2 d = Ok (PyFloat x2) /\ x1 <= x2.
Proof.
  intros Hd Hn. rewrite !(percentage_pos _ d Hd). eexists. eexists.
  split; [reflexivity|]. split; [reflexivity|].
  unfold Float.mul. rewrite of_int_100. apply round_mono.
  apply Qmult_le_compat_r; [|lra]. apply round_mono. now apply ratio_mono.
Qed.

Lemma percentage_none (d : nat) : (0 < d)%nat -> percentage 0 d = Ok (PyFloat 0).
Proof.
  intros Hd. rewrite (percentage_pos 0 d Hd).
  assert (Hd' : 0 < inject_Z (Z.of_nat d)) by (rewrite <- (Zlt_Qlt 0); lia).
  rewrite (round_compat (inject_Z (Z.of_nat 0) / inject_Z (Z.of_nat d)) 0).
  - reflexivity.
  - change (inject_Z (Z.of_nat 0)) with 0. field. lra.
Qed.

Lemma percentage_all (d : nat) : (0 < d)%nat -> percentage d d = Ok (PyFloat 100).
Proof.
  intros Hd. rewrite (percentage_pos d d Hd).
  assert (Hd' : 0 < inject_Z (Z.of_nat d)) by (rewrite <- (Zlt_Qlt 0); lia).
  rewrite (round_compat (inject_Z (Z.of_nat d) / inject_Z (Z.of_nat d)) 1).
  - vm_compute. reflexivity.
  - field. lra.
Qed.

Lemma goal_reached (n d : nat) (x : Q) :
  (0 < d)%nat -> (d <= 5 * n)%nat ->
  percentage n d = Ok (PyFloat x) -> 20 <= x.
Proof.
  intros Hd Hn. rewrite (percentage_pos n d Hd). intros [= <-].
  assert (Hd' : 0 < inject_Z (Z.of_nat d)) by (rewrite <- (Zlt_Qlt 0); lia).
  assert (Hr : 1 # 5 <= inject_Z (Z.of_nat n) / inject_Z (Z.of_nat d)).
  { apply Qle_shift_div_l; [exact Hd'|].
    unfold Qle, Qmult, inject_Z. simpl. lia. }
  apply round_mono in Hr.
  unfold Float.mul. rewrite of_int_100.
  assert (E : Float.round (Float.round (1 # 5) * 100) = 20) by (vm_compute; reflexivity).
  rewrite <- E. apply round_mono. apply Qmult_le_compat_r; [exact Hr | lra].
Qed.

Lemma goal_missed (n d : nat) (x : Q) :
  (0 < d)%nat -> (5 * n < d)%nat -> (Z.of_nat d <= 10 ^ 9)%Z ->
  percentage n d = Ok (PyFloat x) -> x < 20.
Proof.
  intros Hd Hn Hb. rewrite (percentage_pos n d Hd). intros [= <-].
  assert (Hd' : 0 < inject_Z (Z.of_nat d)) by (rewrite <- (Zlt_Qlt 0); lia).
  assert (Hr : inject_Z (Z.of_nat n) / inject_Z (Z.of_nat d)
               <= (10 ^ 9 - 1) # (5 * 10 ^ 9)).
  { apply Qle_shift_div_r; [exact Hd'|].
    unfold Qle, Qmult, inject_Z. cbn [Qnum Qden]. simpl Z.pow in *. lia. }
  apply round_mono in Hr.
  unfold Float.mul. rewrite of_int_100.
  assert (E : Float.round (Float.round ((10 ^ 9 - 1) # (5 * 10 ^ 9)) * 100) < 20)
    by (vm_compute; reflexivity).
  eapply Qle_lt_trans; [|exact E].
  apply round_mono. apply Qmult_le_compat_r; [exact Hr | lra].
Qed.

Lemma bar_color_rule (n d : nat) (share : pynum) :
  (Z.of_nat d <= 10 ^ 9)%Z ->
  percentage n d = Ok share ->
  ge_float share goal_value = (0 <? d)%nat && (d <=? 5 * n)%nat.
Proof.
  intros Hb Hp. destruct d as [|d].
  - rewrite percentage_zero in Hp. injection Hp as <-. reflexivity.
  - assert (Hd : (0 < S d)%nat) by lia.
    pose proof Hp as Hp'. rewrite (percentage_pos n (S d) Hd) in Hp'.
    injection Hp' as Hs. rewrite <- Hs in Hp.
    unfold ge_float, to_float, goal_value. rewrite <- Hs.
    change (0 <? S d)%nat with true. cbn [andb].
    destruct (Nat.leb_spec (S d) (5 * n)) as [H|H].
    + apply Qle_bool_iff. eapply goal_reached; eauto.
    + apply not_true_is_false. intros C. apply Qle_bool_iff in C.
      pose proof (goal_missed n (S d) _ Hd H Hb Hp). lra.
Qed.
End ShareFacts.

(** X6.  For a pool of at most 10^9 Display tickets the bar of the chart is
    green ("#00CC66") exactly when the pool is not empty and the completed
    count is at least one fifth of it, and orange ("#FF9933") otherwise:
    binary64 rounding does not move the 20% threshold. *)
Theorem bar_is_green_from_one_fifth
        (df : DataFrame) (pick : list string -> string) (w : world) :
  (Z.of_nat (total_display_pool df) <= 10 ^ 9)%Z ->
  exists (share : pynum) (w' : world),
    dashboard df pick w = (Ok tt, w') /\
    In (altair_chart share goal_value
          (if (0 <? total_display_pool df)%nat &&
              (total_display_pool df <=? 5 * user_closed_display df (pick (team_members df)))%nat
           then "#00CC66" else "#FF9933"))
       (page w').
Proof.
  intros Hb. destruct (dashboard_run df pick w) as (share & rows & Hs & _ & Hd).
  exists share. eexists. split; [exact Hd|].
  rewrite <- (bar_color_rule _ _ share Hb Hs). simpl. tauto.
Qed.

(** X5.  In a category with tickets, a member with no more completed
    tickets than another never gets a larger share; a member with none gets
    exactly 0.0 (shown "0.0%") and a member who completed all of them
    exactly 100.0 (shown "100.0%"). *)
Theorem share_monotone_with_exact_ends (df : DataFrame) (u1 u2 cat : string) :
  0 < total_cat df cat ->
  (user_cat df u1 cat <= user_cat df u2 cat ->
   exists x1 x2 : Float.float,
     perc df u1 cat = Ok (PyFloat x1) /\ perc df u2 cat = Ok (PyFloat x2) /\
     (x1 <= x2)%Q) /\
  (user_cat df u1 cat = 0 ->
   perc df u1 cat = Ok (PyFloat 0%Q) /\ format_percent (PyFloat 0%Q) = "0.0%") /\
  (user_cat df u1 cat = total_cat df cat ->
   perc df u1 cat = Ok (PyFloat 100%Q) /\ format_percent (PyFloat 100%Q) = "100.0%").
Proof.
  intros Hpos. unfold perc. split; [|split].
  - intros Hle. now apply percentage_mono.
  - intros ->. split; [now apply percentage_none | reflexivity].
  - intros ->. split; [now apply percentage_all | reflexivity].
Qed.


(** ** Runs, the network and the cache *)

Lemma cache_valid_hit (now : Z) (w : world) :
  cache_valid now w = true ->
  exists v t0, memo w = Some (v, t0) /\ (now < t0 + 3600)%Z.
Proof.
  unfold cache_valid. destruct (memo w) as [[v t0]|]; [|discriminate].
  intros H. apply Z.ltb_lt in H. eauto.
Qed.

Lemma cache_valid_miss (now : Z) (w : world) :
  cache_valid now w = false ->
  match memo w with
  | Some (_, t0) => (t0 + 3600 <= now)%Z
  | None => True
  end.
Proof.
  unfold cache_valid. destruct (memo w) as [[v t0]|]; [|trivial].
  intros H. now apply Z.ltb_ge in H.
Qed.

(** What a run leaves of the network and the cache, whatever it renders. *)
Lemma run_effects (cfg : secrets) (now : Z) (pick : list string -> string) (w : world) :
  server (snd (run cfg now pick w)) = server w /\
  sent (snd (run cfg now pick w)) = sent (snd (load_h1_data cfg now w)) /\
  memo (snd (run cfg now pick w)) = memo (snd (load_h1_data cfg now w)) /\
  server (snd (load_h1_data cfg now w)) = server w.
Proof.
  rewrite run_unfold, load_frame.
  assert (Hsrv : server (snd (load_h1_data cfg now w)) = server w).
  { destruct (load_cases cfg now w) as [(v & t0 & Hm & Hlt)|Hmiss].
    - now rewrite (load_hit cfg now t0 v w Hm Hlt).
    - rewrite (load_miss cfg now w Hmiss). now destruct (decode _). }
  destruct (load_h1_data cfg now w) as [[df|e] w1]; cbn [fst snd] in *.
  - destruct (empty df).
    + cbn. auto.
    + destruct (dashboard_run df pick (with_page banner w1)) as (s & r & _ & _ & ->).
      cbn. auto.
  - cbn. auto.
Qed.

(** X7.  A run sends nothing and leaves the cache alone while the cache
    entry is valid, and sends exactly the one search request otherwise; it
    never changes the tracker, and what it sends and caches does not depend
    on the selected team member. *)
Theorem run_sends_at_most_one_search
        (cfg : secrets) (now : Z) (pick pick' : list string -> string) (w : world) :
  (if cache_valid now w
   then sent (snd (run cfg now pick w)) = sent w /\
        memo (snd (run cfg now pick w)) = memo w
   else sent (snd (run cfg now pick w)) = search_request cfg :: sent w) /\
  server (snd (run cfg now pick w)) = server w /\
  sent (snd (run cfg now pick' w)) = sent (snd (run cfg now pick w)) /\
  memo (snd (run cfg now pick' w)) = memo (snd (run cfg now pick w)).
Proof.
  destruct (run_effects cfg now pick w) as (Hs & Hsent & Hmemo & _).
  destruct (run_effects cfg now pick' w) as (_ & Hsent' & Hmemo' & _).
  rewrite Hsent, Hmemo, Hsent', Hmemo'. split; [|auto].
  destruct (cache_valid now w) eqn:E.
  - destruct (cache_valid_hit now w E) as (v & t0 & Hm & Hlt).
    now rewrite (load_hit cfg now t0 v w Hm Hlt).
  - rewrite (load_miss cfg now w (cache_valid_miss now w E)).
    now destruct (decode _).
Qed.

(** X8.  While the cache entry is valid the run does not consult the
    tracker: with any other tracker behind it the run ends the same way and
    renders the same page. *)
Theorem valid_cache_hides_the_tracker
        (cfg : secrets) (now : Z) (pick : list string -> string) (w : world)
        (srv : nat -> Requests.response) :
  cache_valid now w = true ->
  run cfg now pick (with_server srv w)
  = (fst (run cfg now pick w), with_server srv (snd (run cfg now pick w))).
Proof.
  intros E. destruct (cache_valid_hit now w E) as (v & t0 & Hm & Hlt).
  rewrite !run_unfold.
  rewrite (load_hit cfg now t0 v (with_page banner w) Hm Hlt).
  rewrite (load_hit cfg now t0 v (with_page banner (with_server srv w)) Hm Hlt).
  destruct (empty v); [reflexivity|].
  destruct (dashboard_run v pick (with_page banner w)) as (s & r & Hs & Hr & ->).
  destruct (dashboard_run v pick (with_page banner (with_server srv w)))
    as (s' & r' & Hs' & Hr' & ->).
  rewrite Hs in Hs'. injection Hs' as <-. rewrite Hr in Hr'. injection Hr' as <-.
  reflexivity.
Qed.

Lemma decode_no_issues (r : Requests.response) (body : Jira.search_result) :
  ~ (400 <= Requests.status_code r < 600)%Z ->
  Requests.json r = Some body ->
  Jira.issues body = None \/ Jira.issues body = Some [] ->
  decode r = Ok [].
Proof.
  intros Hs Hj Hi. unfold decode. rewrite (raise_for_status_pass r Hs), Hj.
  now destruct Hi as [-> | ->].
Qed.

(** X9.  A response that passes the status check and carries no [issues]
    key, or an empty list, counts as an empty result: the run shows the
    warning and the empty table is cached, so every run of the next hour
    shows the warning again without asking the tracker, whatever the
    tracker would answer by then. *)
Theorem empty_result_is_cached
        (cfg : secrets) (now : Z) (pick : list string -> string) (w : world)
        (body : Jira.search_result) :
  cache_valid now w = false ->
  ~ (400 <= Requests.status_code (server w (calls w)) < 600)%Z ->
  Requests.json (server w (calls w)) = Some body ->
  Jira.issues body = None \/ Jira.issues body = Some [] ->
  exists w',
    run cfg now pick w = (Ok tt, w') /\
    page w' = warning "No tickets found for the current OKR period." :: banner /\
    memo w' = Some ([], now) /\
    sent w' = search_request cfg :: sent w /\
    forall (t2 : Z) (pick' : list string -> string) (srv : nat -> Requests.response),
      (t2 < now + 3600)%Z ->
      exists w'',
        run cfg t2 pick' (with_server srv w') = (Ok tt, w'') /\
        page w'' = warning "No tickets found for the current OKR period." :: banner /\
        sent w'' = sent w'.
Proof.
  intros Hc Hs Hj Hi.
  pose proof (decode_no_issues _ body Hs Hj Hi) as Hd.
  rewrite run_unfold.
  rewrite (load_miss cfg now (with_page banner w) (cache_valid_miss now w Hc)).
  change (server (with_page banner w) (calls (with_page banner w)))
    with (server w (calls w)).
  rewrite Hd. cbn [empty]. eexists. split; [reflexivity|].
  cbn [page with_page memo sent]. repeat split.
  intros t2 pick' srv Ht. rewrite run_unfold.
  erewrite load_hit; [|reflexivity|exact Ht].
  cbn [empty]. eexists. split; [reflexivity|]. split; reflexivity.
Qed.

(** ** Fetched rows, secrets and the chart *)

Lemma lower_app (a b : string) : Py.lower (a +:+ b) = Py.lower a +:+ Py.lower b.
Proof. induction a as [|c a IH]; simpl; [reflexivity | now rewrite IH]. Qed.

Lemma total_cat_insert (df1 df2 : DataFrame) (t : Ticket) (cat : string) :
  total_cat (df1 ++ t :: df2) cat =
  total_cat (df1 ++ df2) cat + (if type_contains cat t then 1 else 0).
Proof.
  unfold total_cat, cat_pool. rewrite !List.filter_app, !length_app. simpl.
  destruct (type_contains cat t); simpl; lia.
Qed.

(** X10.  A ticket whose type holds the category label in any letter case,
    with any text before and after it ("ANZ - Display", "uk - DISPLAY ads"),
    is selected by the category filter and adds one to the team total; so is
    every ticket whose type differs from it in letter case only. *)
Theorem regional_variants_are_counted
        (cat pre mid post : string) (t : Ticket) (df1 df2 : DataFrame) :
  type t = pre +:+ mid +:+ post ->
  Py.lower mid = Py.lower cat ->
  type_contains cat t = true /\
  total_cat (df1 ++ t :: df2) cat = S (total_cat (df1 ++ df2) cat) /\
  (forall t', Py.lower (type t') = Py.lower (type t) -> type_contains cat t' = true).
Proof.
  intros Ht Hm.
  assert (Hin : forall t', Py.lower (type t') = Py.lower (type t) ->
                           type_contains cat t' = true).
  { intros t' E. apply search_ci_lower.
    exists (Py.lower pre), (Py.lower post).
    now rewrite E, Ht, !lower_app, Hm. }
  assert (Hc : type_contains cat t = true) by now apply Hin.
  split; [exact Hc|]. split; [|exact Hin].
  rewrite total_cat_insert, Hc. lia.
Qed.

(** X3.  The options of the select box depend on the set of assignee values
    only: tables with the same assignee values, in any order and with any
    multiplicity, give the same options.  There are never more options than
    rows, and a non-empty table gives at least one option. *)
Theorem team_options_depend_on_assignee_set (df df' : DataFrame) :
  (forall a, In a (map assignee df) <-> In a (map assignee df')) ->
  team_members df = team_members df' /\
  length (team_members df) <= length df /\
  (empty df = false -> team_members df <> []).
Proof.
  intros H. split; [now apply team_members_ext|]. split.
  - rewrite <- (length_map assignee df).
    apply List.NoDup_incl_length; [apply team_members_NoDup|].
    intros a Ha. apply team_members_In in Ha. destruct Ha as (t & Ht & <-).
    now apply List.in_map.
  - destruct df as [|t df]; [discriminate|]. intros _ E.
    assert (Hin : In (assignee t) (team_members (t :: df))).
    { apply team_members_In. exists t. split; [now left | reflexivity]. }
    rewrite E in Hin. contradiction.
Qed.

(** X12.  A response that passes the status check yields one row per issue,
    in the order of the response, with key, type name and status name copied
    verbatim; distinct issue keys give distinct row keys. *)
Theorem fetch_keeps_one_row_per_issue
        (cfg : secrets) (w : world) (body : Jira.search_result) (l : list Jira.issue) :
  ~ (400 <= Requests.status_code (server w (calls w)) < 600)%Z ->
  Requests.json (server w (calls w)) = Some body ->
  Jira.issues body = Some l ->
  exists df,
    fst (load_h1_data_body cfg w) = Ok df /\
    length df = length l /\
    map key df = map Jira.key l /\
    map type df = map (fun i => Jira.name (Jira.issuetype (Jira.fields i))) l /\
    map status df = map (fun i => Jira.name (Jira.status (Jira.fields i))) l /\
    (List.NoDup (map Jira.key l) -> List.NoDup (map key df)).
Proof.
  intros Hs Hj Hi. rewrite load_body_run. cbn [fst]. unfold decode.
  rewrite (raise_for_status_pass _ Hs), Hj, Hi. eexists. split; [reflexivity|].
  rewrite length_map, !map_map. cbn [normalize key type status].
  repeat split. auto.
Qed.

Lemma normalize_consistent (i : Jira.issue) : flag_consistent (normalize i).
Proof. reflexivity. Qed.

Lemma decode_consistent (r : Requests.response) (df : DataFrame) :
  decode r = Ok df -> Forall flag_consistent df.
Proof.
  unfold decode. destruct (Requests.raise_for_status r); [|discriminate].
  destruct (Requests.json r) as [body|]; [|discriminate].
  intros [= <-]. apply List.Forall_forall. intros t Ht. apply List.in_map_iff in Ht.
  destruct Ht as (i & <- & _). apply normalize_consistent.
Qed.

(** X13.  If every row of the cached table has an [is_closed] flag that
    agrees with its status, then so has every row of the table a run works
    on, fetched or cached, and every row of the cache after the run. *)
Theorem flags_stay_consistent_across_runs
        (cfg : secrets) (now : Z) (pick : list string -> string) (w : world) :
  cache_consistent w ->
  cache_consistent (snd (run cfg now pick w)) /\
  (forall df, fst (load_h1_data cfg now w) = Ok df -> Forall flag_consistent df).
Proof.
  intros Hw.
  assert (H : cache_consistent (snd (load_h1_data cfg now w)) /\
              forall df, fst (load_h1_data cfg now w) = Ok df -> Forall flag_consistent df).
  { destruct (load_cases cfg now w) as [(v & t0 & Hm & Hlt)|Hmiss].
    - rewrite (load_hit cfg now t0 v w Hm Hlt). cbn [fst snd].
      split; [exact Hw|]. intros df [= <-]. unfold cache_consistent in Hw.
      now rewrite Hm in Hw.
    - rewrite (load_miss cfg now w Hmiss).
      destruct (decode (server w (calls w))) as [df|e] eqn:E; cbn [fst snd].
      + pose proof (decode_consistent _ _ E) as Hdf.
        split; [exact Hdf|]. now intros df' [= <-].
      + split; [exact Hw | discriminate]. }
  split; [|apply H].
  unfold cache_consistent. destruct (run_effects cfg now pick w) as (_ & _ & -> & _). apply H.
Qed.

Lemma run_sent (cfg : secrets) (now : Z) (pick : list string -> string) (w : world) :
  sent (snd (run cfg now pick w))
  = if cache_valid now w then sent w else search_request cfg :: sent w.
Proof.
  destruct (run_effects cfg now pick w) as (_ & -> & _ & _).
  destruct (cache_valid now w) eqn:E.
  - destruct (cache_valid_hit now w E) as (v & t0 & Hm & Hlt).
    now rewrite (load_hit cfg now t0 v w Hm Hlt).
  - rewrite (load_miss cfg now w (cache_valid_miss now w E)).
    now destruct (decode _).
Qed.

(** X11.  When one of the three secrets is missing, the file stops with a
    [KeyError] for a missing key before anything is rendered or sent.  When
    all three are present it never raises [KeyError], behaves as the run
    configured with them, and the request it sends on a cache miss goes to
    the configured domain followed by "/rest/api/3/search/jql", with the
    e-mail and the token as credentials. *)
Theorem missing_secret_stops_script
        (store : gmap string string) (now : Z) (pick : list string -> string)
        (w : world) :
  ((exists k, In k secret_keys /\ store !! k = None) ->
   exists k, In k secret_keys /\ store !! k = None /\
             script store now pick w = (KeyError k, rerun w)) /\
  (forall domain email token,
      store !! "JIRA_DOMAIN" = Some domain ->
      store !! "JIRA_USER_EMAIL" = Some email ->
      store !! "JIRA_API_TOKEN" = Some token ->
      (forall k, fst (script store now pick w) <> KeyError k) /\
      snd (script store now pick w)
      = snd (run {| JIRA_DOMAIN := domain; JIRA_USER_EMAIL := email;
                    JIRA_API_TOKEN := token |} now pick w) /\
      (cache_valid now w = false ->
       exists rq, sent (snd (script store now pick w)) = rq :: sent w /\
                  Requests.url rq = domain +:+ "/rest/api/3/search/jql" /\
                  Requests.auth rq = (email, token))).
Proof.
  unfold script, read_secrets. split.
  - intros (k & Hk & Hnone).
    destruct (store !! "JIRA_DOMAIN") as [d|] eqn:Ed.
    2:{ exists "JIRA_DOMAIN". simpl. auto. }
    destruct (store !! "JIRA_USER_EMAIL") as [e|] eqn:Ee.
    2:{ exists "JIRA_USER_EMAIL". simpl. auto. }
    destruct (store !! "JIRA_API_TOKEN") as [t|] eqn:Et.
    2:{ exists "JIRA_API_TOKEN". simpl. auto. }
    simpl in Hk. destruct Hk as [<-|[<-|[<-|[]]]]; congruence.
  - intros d e t -> -> ->.
    set (cfg := {| JIRA_DOMAIN := d; JIRA_USER_EMAIL := e; JIRA_API_TOKEN := t |}).
    pose proof (run_sent cfg now pick w) as Hsent.
    destruct (run cfg now pick w) as [[[]|ex] w']; cbn [fst snd] in *.
    + split; [discriminate|]. split; [reflexivity|].
      intros Hc. rewrite Hc in Hsent. eexists. split; [exact Hsent|]. split; reflexivity.
    + split; [discriminate|]. split; [reflexivity|].
      intros Hc. rewrite Hc in Hsent. eexists. split; [exact Hsent|]. split; reflexivity.
Qed.

(** X14.  The share shown in the headline metric and drawn in the chart
    always lies between 0 and 100, the domain of the chart axis, also when
    the pool is empty. *)
Theorem charted_share_within_domain
        (df : DataFrame) (pick : list string -> string) (w : world) :
  exists (share : pynum) (color : string) (w' : world),
    dashboard df pick w = (Ok tt, w') /\
    In (altair_chart share goal_value color) (page w') /\
    In (metric "Your Display Market Share" (format_percent share)) (page w') /\
    (0 <= to_float share <= 100)%Q.
Proof.
  destruct (dashboard_run df pick w) as (share & rows & Hs & _ & Hd).
  exists share. eexists. eexists. split; [exact Hd|].
  split; [simpl; tauto|]. split; [simpl; tauto|].
  unfold share_percentage in Hs.
  set (u := pick (team_members df)) in *.
  pose proof (user_cat_le_total df u "Display") as Hle.
  change (user_cat df u "Display") with (user_closed_display df u) in Hle.
  change (total_cat df "Display") with (total_display_pool df) in Hle.
  destruct (total_display_pool df) as [|d] eqn:Ed.
  - rewrite percentage_zero in Hs. injection Hs as <-. vm_compute. split; discriminate.
  - destruct (percentage_range (user_closed_display df u) (S d)) as (x & Hx & Hr);
      [lia | exact Hle |].
    rewrite Hx in Hs. injection Hs as <-. exact Hr.
Qed.

(** ** A failing refresh, and instances of the properties above *)

(** X15.  An expired cache entry is never served: when the refresh fails
    with a 4xx or 5xx status, the run ends with [HTTPError] after the banner
    although the old table is still stored; the entry stays as it was, and
    every later run asks the tracker again. *)
Theorem expired_entry_is_never_served
        (cfg : secrets) (now t0 : Z) (pick : list string -> string) (w : world)
        (v : DataFrame) :
  memo w = Some (v, t0) ->
  (t0 + 3600 <= now)%Z ->
  (400 <= Requests.status_code (server w (calls w)) < 600)%Z ->
  exists w',
    run cfg now pick w
    = (Raise (HTTPError (Requests.status_code (server w (calls w)))), w') /\
    page w' = banner /\
    memo w' = Some (v, t0) /\
    sent w' = search_request cfg :: sent w /\
    forall t2, (now <= t2)%Z -> cache_valid t2 w' = false.
Proof.
  intros Hm Hexp Hst.
  assert (Hmiss : match memo (with_page banner w) with
                  | Some (_, t) => (t + 3600 <= now)%Z
                  | None => True
                  end) by (cbn [memo with_page]; rewrite Hm; exact Hexp).
  assert (D : decode (server w (calls w))
              = Raise (HTTPError (Requests.status_code (server w (calls w))))).
  { unfold decode. now rewrite (raise_for_status_error _ Hst). }
  rewrite run_unfold, (load_miss cfg now (with_page banner w) Hmiss).
  change (server (with_page banner w) (calls (with_page banner w)))
    with (server w (calls w)).
  rewrite D. eexists. split; [reflexivity|].
  cbn [page memo sent after_post with_page]. repeat split; try assumption.
  intros t2 Ht. unfold cache_valid. cbn [memo after_post with_page]. rewrite Hm.
  apply Z.ltb_ge. lia.
Qed.

Lemma expired_entry_is_never_served_witness :
  fst (run example_cfg 3600 (fun options => hd "" options) stale_world)
  = Raise (HTTPError 401).
Proof.
  destruct (expired_entry_is_never_served
              example_cfg 3600 0 (fun options => hd "" options) stale_world
              example_snapshot eq_refl) as (w' & -> & _).
  - lia.
  - simpl. lia.
  - reflexivity.
Defined.

Lemma dashboard_ignores_row_order_witness :
  team_members example_snapshot = team_members (List.rev example_snapshot).
Proof.
  exact (proj1 (proj2 (dashboard_ignores_row_order
                         example_snapshot (List.rev example_snapshot)
                         (fun options => hd "" options)
                         (fresh_world (ok_response example_issues))
                         (Permutation_rev example_snapshot)))).
Defined.

Lemma team_options_depend_on_assignee_set_witness :
  team_members example_snapshot = team_members (example_snapshot ++ example_snapshot).
Proof.
  apply (team_options_depend_on_assignee_set
           example_snapshot (example_snapshot ++ example_snapshot)).
  intros a. simpl. tauto.
Defined.

Lemma share_monotone_with_exact_ends_witness :
  0 < total_cat example_snapshot "Display" /\
  perc example_snapshot "Bob" "Display" = Ok (PyFloat 0%Q).
Proof.
  assert (H : 0 < total_cat example_snapshot "Display") by (vm_compute; lia).
  split; [exact H|].
  apply (share_monotone_with_exact_ends example_snapshot "Bob" "Alice" "Display" H).
  reflexivity.
Defined.

Lemma bar_is_green_from_one_fifth_witness :
  exists (share : pynum) (w' : world),
    dashboard example_snapshot (fun options => hd "" options)
              (fresh_world (ok_response example_issues)) = (Ok tt, w') /\
    In (altair_chart share goal_value "#00CC66") (page w').
Proof.
  assert (H : (Z.of_nat (total_display_pool example_snapshot) <= 10 ^ 9)%Z)
    by (vm_compute; discriminate).
  exact (bar_is_green_from_one_fifth
           example_snapshot (fun options => hd "" options)
           (fresh_world (ok_response example_issues)) H).
Defined.

Lemma valid_cache_hides_the_tracker_witness :
  fst (run example_cfg 10 (fun options => hd "" options) stale_world) = Ok tt.
Proof.
  unfold stale_world.
  rewrite (valid_cache_hides_the_tracker
             example_cfg 10 (fun options => hd "" options)
             (snd (load_h1_data example_cfg 0 (fresh_world (ok_response example_issues))))
             (fun _ => unauthorized_response) eq_refl).
  reflexivity.
Defined.

Lemma empty_result_is_cached_witness :
  exists w',
    run example_cfg 0 (fun options => hd "" options)
        (fresh_world {| Requests.status_code := 200;
                        Requests.json := Some {| Jira.issues := None |} |})
    = (Ok tt, w') /\
    memo w' = Some ([], 0%Z).
Proof.
  destruct (empty_result_is_cached
              example_cfg 0 (fun options => hd "" options)
              (fresh_world {| Requests.status_code := 200;
                              Requests.json := Some {| Jira.issues := None |} |})
              {| Jira.issues := None |} eq_refl)
    as (w' & Hrun & _ & Hmemo & _).
  - simpl. lia.
  - reflexivity.
  - left. reflexivity.
  - exists w'. split; [exact Hrun | exact Hmemo].
Defined.

Lemma regional_variants_are_counted_witness :
  type_contains "Display"
    {| key := "TKTS-6"; type := "uk - DISPLAY ads"; assignee := "Bob";
       status := "Open"; is_closed := false |} = true.
Proof.
  apply (regional_variants_are_counted
           "Display" "uk - " "DISPLAY" " ads"
           {| key := "TKTS-6"; type := "uk - DISPLAY ads"; assignee := "Bob";
              status := "Open"; is_closed := false |} [] []);
    reflexivity.
Defined.

Lemma fetch_keeps_one_row_per_issue_witness :
  exists df,
    fst (load_h1_data_body example_cfg (fresh_world (ok_response example_issues)))
    = Ok df /\
    map key df = ["TKTS-1"; "TKTS-2"; "TKTS-3"].
Proof.
  destruct (fetch_keeps_one_row_per_issue
              example_cfg (fresh_world (ok_response example_issues))
              {| Jira.issues := Some example_issues |} example_issues)
    as (df & Hdf & _ & Hkeys & _).
  - simpl. lia.
  - reflexivity.
  - reflexivity.
  - exists df. split; [exact Hdf | exact Hkeys].
Defined.

Lemma flags_stay_consistent_across_runs_witness :
  cache_consistent
    (snd (run example_cfg 0 (fun options => hd "" options)
              (fresh_world (ok_response example_issues)))).
Proof.
  exact (proj1 (flags_stay_consistent_across_runs
                  example_cfg 0 (fun options => hd "" options)
                  (fresh_world (ok_response example_issues)) I)).
Defined.

Lemma missing_secret_stops_script_witness :
  exists k,
    script (delete "JIRA_API_TOKEN" example_store) 0 (fun options => hd "" options)
           (fresh_world (ok_response example_issues))
    = (KeyError k, rerun (fresh_world (ok_response example_issues))).
Proof.
  destruct (proj1 (missing_secret_stops_script
                     (delete "JIRA_API_TOKEN" example_store) 0
                     (fun options => hd "" options)
                     (fresh_world (ok_response example_issues))))
    as (k & _ & _ & H).
  - exists "JIRA_API_TOKEN". split; [simpl; tauto | reflexivity].
  - exists k. exact H.
Defined.
